(** * uniqueID_Gen: the identifier generator and its bulk application

    A shallow embedding of [src/app.py]:

    - [generate_deterministic_unique_id_with_initials] (lines 7-42),
    - [process_dataframe] (lines 44-72),
    - the statistics computed in [main] (lines 258-273),

    together with the pieces of the Python runtime and of pandas that these
    functions call: [str], [pd.notna], [str.upper], [str.encode],
    [hashlib.sha256], [int(_, 16)], the [05d] format, [Series.get],
    [DataFrame.copy], [DataFrame.insert], [Series.nunique] and
    [DataFrame.duplicated].

    Conventions.  A Python [str] is the list of its code points, a [bytes]
    value the list of its bytes, both as [N].  A Python [int] is a [Z].
    A call that can raise returns a [result].  Tables live in a store, by
    address, so that copying and in-place insertion are what they are in
    pandas.

    Where a statement speaks of string inputs it takes them to be Unicode
    text, which has UTF-8 bytes; a Python [str] can also hold a lone
    surrogate, on which [str.encode] raises ([generate_raises_on_surrogate]
    below). *)

From Stdlib Require Import NArith ZArith Lia.
From stdpp Require Import gmap strings list.

(** ** Exceptions and results *)

(** The exceptions the modelled code can raise.  [KeyError] carries the
    missing dictionary key, [ValueError] which check raised it and
    [UnicodeEncodeError] the position of the offending character. *)
Inductive value_error :=
  | AmbiguousTruthValue   (* bool() of a Series *)
  | InvalidIntLiteral     (* int(s, 16) on a non-numeral *)
  | ColumnAlreadyExists   (* DataFrame.insert on an existing label *)
  | LengthMismatch.       (* DataFrame.insert of a column of another length *)

Inductive exn :=
  | KeyError (key : list N)
  | ValueError (why : value_error)
  | IndexError
  | UnicodeEncodeError (position : nat).

Inductive result (A : Type) :=
  | Returns (a : A)
  | Raises (e : exn).
Arguments Returns {A} a.
Arguments Raises {A} e.

#[global] Instance result_ret : MRet result := @Returns.
#[global] Instance result_bind : MBind result := λ A B f r,
  match r with Returns a => f a | Raises e => Raises e end.
#[global] Instance result_fmap : FMap result := λ A B f r,
  match r with Returns a => Returns (f a) | Raises e => Raises e end.

(** ** Text: Python [str] and [bytes] *)

Module Text.
Local Open Scope N_scope.

(** A [str] is a sequence of code points; Python admits every code point
    below [0x110000], the surrogates [0xD800..0xDFFF] included. *)
Definition pystr := list N.
Definition pybytes := list N.

(** An ASCII literal of the source, as a [pystr]. *)
Definition lit (s : string) : pystr :=
  map Ascii.N_of_ascii (String.list_ascii_of_string s).

Definition is_surrogate (c : N) : bool := (0xD800 <=? c) && (c <=? 0xDFFF).

(** The characters [str.encode()] accepts: the Unicode scalar values. *)
Definition scalar_value (c : N) : bool :=
  (c <? 0x110000) && negb (is_surrogate c).

(** UTF-8 of one code point; [None] where the strict codec refuses
    (a surrogate; a number that is no code point at all has no encoding
    either). *)
Definition utf8_char (c : N) : option pybytes :=
  if c <? 0x80 then Some [c]
  else if c <? 0x800 then
    Some [N.lor 0xC0 (N.shiftr c 6); N.lor 0x80 (N.land c 0x3F)]
  else if c <? 0x10000 then
    if is_surrogate c then None
    else Some [N.lor 0xE0 (N.shiftr c 12);
               N.lor 0x80 (N.land (N.shiftr c 6) 0x3F);
               N.lor 0x80 (N.land c 0x3F)]
  else if c <? 0x110000 then
    Some [N.lor 0xF0 (N.shiftr c 18);
          N.lor 0x80 (N.land (N.shiftr c 12) 0x3F);
          N.lor 0x80 (N.land (N.shiftr c 6) 0x3F);
          N.lor 0x80 (N.land c 0x3F)]
  else None.

(** [s.encode()]: UTF-8, errors='strict'.  [pos] is the index of the head
    of [s] in the whole string. *)
Fixpoint encode_from (pos : nat) (s : pystr) : result pybytes :=
  match s with
  | [] => Returns []
  | c :: s' =>
      match utf8_char c with
      | None => Raises (UnicodeEncodeError pos)
      | Some bs => app bs <$> encode_from (S pos) s'
      end
  end.

Definition encode (s : pystr) : result pybytes := encode_from 0 s.

(** [c.upper()] for a one-character string.  ASCII is written out; the
    case mapping of the other code points is the Unicode table of the
    Python runtime, which is no part of the repository: it is the
    parameter [unicode_upper] (a mapping may yield several code points). *)
Definition upper_char (unicode_upper : N → pystr) (c : N) : pystr :=
  if c <? 0x80 then
    if (0x61 <=? c) && (c <=? 0x7A) then [c - 0x20] else [c]
  else unicode_upper c.

(** Decimal digits of a natural number, most significant first; [fuel]
    bounds the number of digits. *)
Fixpoint digits (fuel : nat) (n : N) : pystr :=
  match fuel with
  | O => []
  | S fuel' =>
      if n <? 10 then [0x30 + n]
      else digits fuel' (n / 10) ++ [0x30 + n mod 10]
  end.

(** [str(n)] for an [int]. *)
Definition str_int (z : Z) : pystr :=
  let n := Z.abs_N z in
  let ds := digits (S (N.to_nat (N.log2 n))) n in
  if (z <? 0)%Z then 0x2D :: ds else ds.

(** [f"{z:05d}"]: sign-aware zero padding to width 5. *)
Definition format_05d (z : Z) : pystr :=
  let n := Z.abs_N z in
  let ds := digits (S (N.to_nat (N.log2 n))) n in
  if (z <? 0)%Z then 0x2D :: replicate (4 - length ds)%nat 0x30 ++ ds
  else replicate (5 - length ds)%nat 0x30 ++ ds.

(** Value of a hexadecimal digit, as [int(_, 16)] reads it. *)
Definition hex_value (c : N) : option N :=
  if (0x30 <=? c) && (c <=? 0x39) then Some (c - 0x30)
  else if (0x61 <=? c) && (c <=? 0x66) then Some (c - 0x57)
  else if (0x41 <=? c) && (c <=? 0x46) then Some (c - 0x37)
  else None.

Fixpoint int16_from (acc : N) (s : pystr) : option N :=
  match s with
  | [] => Some acc
  | c :: s' =>
      match hex_value c with
      | Some d => int16_from (16 * acc + d) s'
      | None => None
      end
  end.

(** [int(s, 16)] on a plain run of hexadecimal digits, which is all a
    hexdigest is (sign, [0x] prefix, underscores and surrounding blanks,
    which [int] also reads, do not occur in one and are not modelled). *)
Definition int_16 (s : pystr) : result Z :=
  match s with
  | [] => Raises (ValueError InvalidIntLiteral)
  | _ =>
      match int16_from 0 s with
      | Some n => Returns (Z.of_N n)
      | None => Raises (ValueError InvalidIntLiteral)
      end
  end.
End Text.

(** ** SHA-256 (FIPS 180-4), as [hashlib.sha256] computes it *)

Module Sha256.
Import Text.
Local Open Scope N_scope.

Definition add32 (a b : N) : N := (a + b) mod 2 ^ 32.
Definition rotr (n x : N) : N :=
  N.lor (N.shiftr x n) (N.shiftl x (32 - n) mod 2 ^ 32).
Definition not32 (x : N) : N := N.lxor x (N.ones 32).

Definition ch (x y z : N) : N := N.lxor (N.land x y) (N.land (not32 x) z).
Definition maj (x y z : N) : N :=
  N.lxor (N.lxor (N.land x y) (N.land x z)) (N.land y z).
Definition big_sigma0 (x : N) : N :=
  N.lxor (N.lxor (rotr 2 x) (rotr 13 x)) (rotr 22 x).
Definition big_sigma1 (x : N) : N :=
  N.lxor (N.lxor (rotr 6 x) (rotr 11 x)) (rotr 25 x).
Definition small_sigma0 (x : N) : N :=
  N.lxor (N.lxor (rotr 7 x) (rotr 18 x)) (N.shiftr x 3).
Definition small_sigma1 (x : N) : N :=
  N.lxor (N.lxor (rotr 17 x) (rotr 19 x)) (N.shiftr x 10).

(** Round constants, eight to a row as FIPS 180-4 section 4.2.2 prints
    them. *)
Definition round_constants : list N :=
  [0x428a2f98; 0x71374491; 0xb5c0fbcf; 0xe9b5dba5;
   0x3956c25b; 0x59f111f1; 0x923f82a4; 0xab1c5ed5]
  ++ [0xd807aa98; 0x12835b01; 0x243185be; 0x550c7dc3;
      0x72be5d74; 0x80deb1fe; 0x9bdc06a7; 0xc19bf174]
  ++ [0xe49b69c1; 0xefbe4786; 0x0fc19dc6; 0x240ca1cc;
      0x2de92c6f; 0x4a7484aa; 0x5cb0a9dc; 0x76f988da]
  ++ [0x983e5152; 0xa831c66d; 0xb00327c8; 0xbf597fc7;
      0xc6e00bf3; 0xd5a79147; 0x06ca6351; 0x14292967]
  ++ [0x27b70a85; 0x2e1b2138; 0x4d2c6dfc; 0x53380d13;
      0x650a7354; 0x766a0abb; 0x81c2c92e; 0x92722c85]
  ++ [0xa2bfe8a1; 0xa81a664b; 0xc24b8b70; 0xc76c51a3;
      0xd192e819; 0xd6990624; 0xf40e3585; 0x106aa070]
  ++ [0x19a4c116; 0x1e376c08; 0x2748774c; 0x34b0bcb5;
      0x391c0cb3; 0x4ed8aa4a; 0x5b9cca4f; 0x682e6ff3]
  ++ [0x748f82ee; 0x78a5636f; 0x84c87814; 0x8cc70208;
      0x90befffa; 0xa4506ceb; 0xbef9a3f7; 0xc67178f2].

(** The eight working variables, also the shape of a hash value. *)
Record regs := Regs { ra : N; rb : N; rc : N; rd : N;
                      re : N; rf : N; rg : N; rh : N }.

Definition initial_hash : regs :=
  Regs 0x6a09e667 0xbb67ae85 0x3c6ef372 0xa54ff53a
       0x510e527f 0x9b05688c 0x1f83d9ab 0x5be0cd19.

(** Big-endian bytes of a number, [width] of them. *)
Fixpoint be_bytes (width : nat) (x : N) : pybytes :=
  match width with
  | O => []
  | S w => (x / 256 ^ N.of_nat w) mod 256 :: be_bytes w x
  end.

(** The number a byte string spells, big-endian. *)
Definition be_value (bs : pybytes) : N :=
  fold_left (λ acc b, 256 * acc + b) bs 0.

(** Padding (section 5.1.1): a [0x80] byte, zero bytes up to 56 modulo
    64, and the bit length on 64 bits. *)
Definition pad (msg : pybytes) : pybytes :=
  let len := N.of_nat (length msg) in
  let zeros := N.to_nat ((64 - (len + 9) mod 64) mod 64) in
  msg ++ 0x80 :: replicate zeros 0 ++ be_bytes 8 (8 * len).

(** The 32-bit words of a byte string, four bytes each. *)
Fixpoint words (count : nat) (bs : pybytes) : list N :=
  match count with
  | O => []
  | S count' => be_value (take 4 bs) :: words count' (drop 4 bs)
  end.

(** Message schedule (section 6.2.2, step 1): [w] holds the words
    computed so far, [more] are still to be added. *)
Fixpoint schedule (more : nat) (w : list N) : list N :=
  match more with
  | O => w
  | S more' =>
      let t := length w in
      let at_ (back : nat) := nth (t - back) w 0 in
      let wt := add32 (add32 (add32 (small_sigma1 (at_ 2%nat)) (at_ 7%nat))
                             (small_sigma0 (at_ 15%nat))) (at_ 16%nat) in
      schedule more' (w ++ [wt])
  end.

(** One round (step 3). *)
Definition round (r : regs) (kw : N * N) : regs :=
  let t1 := add32 (add32 (add32 (add32 (rh r) (big_sigma1 (re r)))
                                (ch (re r) (rf r) (rg r))) kw.1) kw.2 in
  let t2 := add32 (big_sigma0 (ra r)) (maj (ra r) (rb r) (rc r)) in
  Regs (add32 t1 t2) (ra r) (rb r) (rc r) (add32 (rd r) t1) (re r) (rf r) (rg r).

(** Compression of one 64-byte block into the hash value (steps 1-4). *)
Definition compress (h : regs) (block : pybytes) : regs :=
  let w := schedule 48 (words 16 block) in
  let r := fold_left round (zip round_constants w) h in
  Regs (add32 (ra h) (ra r)) (add32 (rb h) (rb r))
       (add32 (rc h) (rc r)) (add32 (rd h) (rd r))
       (add32 (re h) (re r)) (add32 (rf h) (rf r))
       (add32 (rg h) (rg r)) (add32 (rh h) (rh r)).

Fixpoint blocks (count : nat) (h : regs) (bs : pybytes) : regs :=
  match count with
  | O => h
  | S count' => blocks count' (compress h (take 64 bs)) (drop 64 bs)
  end.

(** [hashlib.sha256(msg).digest()]: 32 bytes. *)
Definition digest (msg : pybytes) : pybytes :=
  let padded := pad msg in
  let h := blocks (length padded / 64) initial_hash padded in
  flat_map (be_bytes 4)
    [ra h; rb h; rc h; rd h; re h; rf h; rg h; rh h].

Definition hex_digit (d : N) : N := if d <? 10 then 0x30 + d else 0x57 + d.

(** [hashlib.sha256(msg).hexdigest()]: two lowercase hexadecimal digits
    per byte. *)
Definition hexdigest (msg : pybytes) : pystr :=
  flat_map (λ b, [hex_digit (b / 16); hex_digit (b mod 16)]) (digest msg).
End Sha256.

(** ** pandas: cells, rows, tables *)

Module Pandas.
Import Text.

(** A cell.  [SNull] stands for the missing values [pd.notna] refuses
    ([None], [NaN], [NaT], [pd.NA]); floats other than [NaN] are not
    modelled. *)
Inductive scalar :=
  | SNull
  | SStr (s : pystr)
  | SInt (z : Z).

(** What [Series.get] hands back: a cell, or, when the label occurs more
    than once among the columns, the Series of the cells under it. *)
Inductive value :=
  | Scalar (x : scalar)
  | Series (xs : list scalar).

#[global] Instance scalar_eq_dec : EqDecision scalar.
Proof. solve_decision. Defined.

(** [str(v) if pd.notna(v) else ""], lines 13-19.  On a Series
    [pd.notna] answers with a Series, whose truth value the conditional
    then asks for: pandas raises [ValueError]. *)
Definition normalize (v : value) : result pystr :=
  match v with
  | Scalar SNull => Returns []
  | Scalar (SStr s) => Returns s
  | Scalar (SInt z) => Returns (str_int z)
  | Series _ => Raises (ValueError AmbiguousTruthValue)
  end.

(** A table: column labels and the rows, each row holding one cell per
    column.  The index is the default [RangeIndex], so a row's index is
    its position. *)
Record DataFrame := { columns : list pystr; rows : list (list scalar) }.

(** [len(df)]. *)
Definition len (df : DataFrame) : Z := Z.of_nat (length (rows df)).

(** The cells of [row] under the label [key]. *)
Fixpoint cells_under (key : pystr) (columns : list pystr)
    (row : list scalar) : list scalar :=
  match columns, row with
  | c :: columns', x :: row' =>
      if decide (c = key) then x :: cells_under key columns' row'
      else cells_under key columns' row'
  | _, _ => []
  end.

(** [row.get(key, default)] on a row of [df.iterrows()]. *)
Definition row_get (columns : list pystr) (row : list scalar)
    (key : pystr) (default : value) : value :=
  match cells_under key columns row with
  | [] => default
  | [x] => Scalar x
  | xs => Series xs
  end.

Definition insert_at {A} (loc : nat) (x : A) (l : list A) : list A :=
  take loc l ++ x :: drop loc l.

(** [df.insert(loc, column, value)] with [allow_duplicates] left at its
    default: the table it makes of [df], or the exception. *)
Definition insert (loc : nat) (column : pystr) (value : list scalar)
    (df : DataFrame) : result DataFrame :=
  if decide (column ∈ columns df) then Raises (ValueError ColumnAlreadyExists)
  else if decide (length (columns df) < loc) then Raises IndexError
  else if decide (length value ≠ length (rows df)) then
    Raises (ValueError LengthMismatch)
  else Returns {| columns := insert_at loc column (columns df);
                  rows := zip_with (insert_at loc) value (rows df) |}.

(** [df[label]]: the cells of the column (the leftmost one under that
    label; with a label that occurs twice pandas answers with a frame,
    which is not modelled). *)
Definition getitem (df : DataFrame) (label : pystr) : result (list scalar) :=
  match list_find (λ c, c = label) (columns df) with
  | Some (i, _) => Returns ((λ row, default SNull (row !! i)) <$> rows df)
  | None => Raises (KeyError label)
  end.

(** [s.nunique()]: the number of distinct values, missing ones dropped. *)
Definition nunique (s : list scalar) : Z :=
  Z.of_nat (length (remove_dups (filter (λ x, x ≠ SNull) s))).

(** [s.duplicated(keep=False)]: marks every value that occurs more than
    once. *)
Definition duplicated_keep_false (s : list scalar) : list bool :=
  (λ x, bool_decide (1 < length (filter (λ y, y = x) s))) <$> s.

(** The objects of the program: tables by address, and what [st.error]
    has been asked to show. *)
Definition loc := nat.
Record world := World {
  objs : gmap loc DataFrame;
  st_errors : list (Z * exn)
}.

(** [df.copy()]: a new object with the same contents. *)
Definition copy (df : loc) (w : world) : option (loc * world) :=
  t ← objs w !! df;
  let new := fresh (dom (objs w)) in
  Some (new, World (<[new := t]> (objs w)) (st_errors w)).

(** [df.insert(loc, column, value)] on the object at [df], in place. *)
Definition insert_in_place (df : loc) (at_ : nat) (column : pystr)
    (value : list scalar) (w : world) : option (result unit * world) :=
  t ← objs w !! df;
  match insert at_ column value t with
  | Returns t' => Some (Returns (), World (<[df := t']> (objs w)) (st_errors w))
  | Raises e => Some (Raises e, w)
  end.
End Pandas.

(** ** The application: [src/app.py] *)

Module App.
Import Text Pandas.

(** A Python [dict] from [str] to [str]. *)
Definition dict := gmap pystr pystr.

(** [d[key]]. *)
Definition dict_getitem (d : dict) (key : pystr) : result pystr :=
  match d !! key with
  | Some v => Returns v
  | None => Raises (KeyError key)
  end.

(** [d.get(key, default)]. *)
Definition dict_get (d : dict) (key fallback : pystr) : pystr :=
  default fallback (d !! key).

Section WithRuntime.
(** The uppercase mapping of the non-ASCII code points (see
    [Text.upper_char]). *)
Variable unicode_upper : N → pystr.

(** Lines 23-27. *)
Definition initials_of (first_name last_name : pystr) : pystr :=
  match first_name, last_name with
  | c1 :: _, c2 :: _ =>
      upper_char unicode_upper c1 ++ upper_char unicode_upper c2
  | _, _ => []
  end.

(** Line 30: [phone if phone else email]. *)
Definition primary_contact_of (phone email : pystr) : pystr :=
  match phone with [] => email | _ => phone end.

(** Lines 7-42. *)
Definition generate_deterministic_unique_id_with_initials
    (first_name middle_name last_name kendra zone email phone : value)
    : result pystr :=
  first_name ← normalize first_name;
  last_name ← normalize last_name;
  middle_name ← normalize middle_name;
  kendra ← normalize kendra;
  zone ← normalize zone;
  email ← normalize email;
  phone ← normalize phone;
  let initials := initials_of first_name last_name in
  let primary_contact := primary_contact_of phone email in
  let combined_string :=
    first_name ++ middle_name ++ last_name ++ kendra ++ zone
    ++ primary_contact in
  encoded ← encode combined_string;
  number ← int_16 (Sha256.hexdigest encoded);
  let unique_number := (number mod 100000)%Z in
  Returns (initials ++ lit "-" ++ format_05d unique_number).

(** Lines 55-63: the body of the [try], for one row. *)
Definition row_unique_id (column_mapping : dict) (columns : list pystr)
    (row : list scalar) : result pystr :=
  let empty := Scalar (SStr []) in
  c_first ← dict_getitem column_mapping (lit "first_name");
  let first_name := row_get columns row c_first empty in
  c_middle ← dict_getitem column_mapping (lit "middle_name");
  let middle_name := row_get columns row c_middle empty in
  c_last ← dict_getitem column_mapping (lit "last_name");
  let last_name := row_get columns row c_last empty in
  c_kendra ← dict_getitem column_mapping (lit "kendra");
  let kendra := row_get columns row c_kendra empty in
  c_zone ← dict_getitem column_mapping (lit "zone");
  let zone := row_get columns row c_zone empty in
  c_email ← dict_getitem column_mapping (lit "email");
  let email := row_get columns row c_email empty in
  let phone :=
    row_get columns row (dict_get column_mapping (lit "phone") []) empty in
  generate_deterministic_unique_id_with_initials
    first_name middle_name last_name kendra zone email phone.

(** Lines 53-67: the loop over [df.iterrows()].  [index] is the index
    of the head of [rows]; [unique_ids] and [errors] are the list being
    appended to and the messages sent to [st.error] so far. *)
Fixpoint for_rows (column_mapping : dict) (columns : list pystr)
    (index : Z) (rows : list (list scalar))
    (unique_ids : list pystr) (errors : list (Z * exn))
    : list pystr * list (Z * exn) :=
  match rows with
  | [] => (unique_ids, errors)
  | row :: rows' =>
      match row_unique_id column_mapping columns row with
      | Returns unique_id =>
          for_rows column_mapping columns (index + 1) rows'
            (unique_ids ++ [unique_id]) errors
      | Raises e =>
          for_rows column_mapping columns (index + 1) rows'
            (unique_ids ++ [lit "ERROR"]) (errors ++ [((index + 1)%Z, e)])
      end
  end.

(** What the loop appends for a row: the identifier (line 64) or the
    sentinel (line 67). *)
Definition row_entry (column_mapping : dict) (columns : list pystr)
    (row : list scalar) : pystr :=
  match row_unique_id column_mapping columns row with
  | Returns unique_id => unique_id
  | Raises _ => lit "ERROR"
  end.

(** What the loop sends to [st.error] for the rows from [index] on
    (line 66). *)
Fixpoint rows_errors (column_mapping : dict) (columns : list pystr)
    (index : Z) (rows : list (list scalar)) : list (Z * exn) :=
  match rows with
  | [] => []
  | row :: rows' =>
      match row_unique_id column_mapping columns row with
      | Returns _ => rows_errors column_mapping columns (index + 1) rows'
      | Raises e =>
          ((index + 1)%Z, e)
          :: rows_errors column_mapping columns (index + 1) rows'
      end
  end.

(** Lines 44-72.  [None] only when [df] is no object of [w]. *)
Definition process_dataframe (df : loc) (column_mapping : dict)
    (w : world) : option (result loc * world) :=
  '(processed_df, w) ← copy df w;
  t ← objs w !! df;
  let '(unique_ids, errors) :=
    for_rows column_mapping (columns t) 0 (rows t) [] (st_errors w) in
  let w := World (objs w) errors in
  '(inserted, w) ← insert_in_place processed_df 0 (lit "Unique_ID")
                     (SStr <$> unique_ids) w;
  match inserted with
  | Returns _ => Some (Returns processed_df, w)
  | Raises e => Some (Raises e, w)
  end.
End WithRuntime.

(** Lines 258-267 of [main]: total records, unique IDs, duplicate IDs. *)
Definition statistics (processed_df : DataFrame) : result (Z * Z * Z) :=
  ids ← getitem processed_df (lit "Unique_ID");
  let unique_count := nunique ids in
  let duplicate_count := (len processed_df - unique_count)%Z in
  Returns (len processed_df, unique_count, duplicate_count).

(** Line 273: the rows shown under "View Duplicate IDs". *)
Definition duplicates (processed_df : DataFrame)
    : result (list (list scalar)) :=
  ids ← getitem processed_df (lit "Unique_ID");
  Returns ((zip (duplicated_keep_false ids) (rows processed_df))
             ≫= λ '(dup, row), if dup : bool then [row] else []).
End App.

(** ** The specification's own words, to compare the code with *)

Module Spec.
Import Text Pandas.
Local Open Scope N_scope.

(** Section 4.1, step 3: [phone] if it is non-empty, else [email]. *)
Definition primary_contact (phone email : pystr) : pystr :=
  if decide (phone ≠ []) then phone else email.

(** Step 4: the six fields, no separator. *)
Definition concatenation
    (first middle last org_unit_primary org_unit_secondary contact : pystr)
    : pystr :=
  concat [first; middle; last; org_unit_primary; org_unit_secondary; contact].

(** Step 7: [k] decimal digits, zero-padded on the left. *)
Fixpoint fixed_digits (k : nat) (n : N) : pystr :=
  match k with
  | O => []
  | S k' => fixed_digits k' (n / 10) ++ [0x30 + n mod 10]
  end.

(** Steps 5-6: the digest of the bytes, read as one big number and
    reduced modulo 100000. *)
Definition residue (bytes : pybytes) : N :=
  Sha256.be_value (Sha256.digest bytes) mod 100000.

Definition is_digit (c : N) : Prop := 0x30 <= c <= 0x39.
Definition is_upper_letter (c : N) : Prop := 0x41 <= c <= 0x5A.
Definition is_lower_letter (c : N) : Prop := 0x61 <= c <= 0x7A.
Definition is_letter (c : N) : Prop := is_upper_letter c ∨ is_lower_letter c.

(** Unicode text: every character is a scalar value (no surrogate). *)
Definition well_formed (s : pystr) : Prop :=
  Forall (λ c, scalar_value c = true) s.

(** Section 3, Identifier: 0 or 2 uppercase letters, a dash, 5 digits. *)
Definition claimed_shape (id : pystr) : Prop :=
  ∃ letters ds,
    id = letters ++ lit "-" ++ ds
    ∧ (letters = []
       ∨ ∃ u1 u2, letters = [u1; u2]
                  ∧ is_upper_letter u1 ∧ is_upper_letter u2)
    ∧ length ds = 5%nat ∧ Forall is_digit ds.

(** The number a run of decimal digits spells. *)
Definition decimal_value (s : pystr) : N :=
  fold_left (λ acc c, 10 * acc + (c - 0x30)) s 0.

(** Section 4.2, post-processing: the rows whose identifier is shared
    with at least one other row. *)
Definition shared_rows (ids : list scalar) : nat :=
  length (filter (λ x, 1 < length (filter (λ y, y = x) ids))%nat ids).

(** The rows whose identifier occurs again further down: each group of
    [k] equal identifiers has [k - 1] of them. *)
Fixpoint repeats (ids : list scalar) : nat :=
  match ids with
  | [] => 0
  | x :: ids' => (if decide (x ∈ ids') then 1 else 0) + repeats ids'
  end.
End Spec.

Import Text Pandas App Spec.

(** ** Known answers for the hash *)

Example sha256_of_empty :
  Sha256.hexdigest [] =
  lit "e3b0c44298fc1c149afbf4c8996fb92427ae41e4649b934ca495991b7852b855".
Proof. vm_compute. reflexivity. Qed.

Example sha256_of_abc :
  Sha256.hexdigest (lit "abc") =
  lit "ba7816bf8f01cfea414140de5dae2223b00361a396177a9cb410ff61f20015ad".
Proof. vm_compute. reflexivity. Qed.

(** Two blocks: the message of FIPS 180-4's second example. *)
Example sha256_of_two_blocks :
  Sha256.hexdigest
    (lit "abcdbcdecdefdefgefghfghighijhijkijkljklmklmnlmnomnopnopq") =
  lit "248d6a61d20638b8e5c026930c3e6039a33ce45964ff2167f6ecedd419db06c1".
Proof. vm_compute. reflexivity. Qed.

(** ** Decimal rendering *)

(** Division and remainder by constants, for [lia]. *)
Ltac Zify.zify_post_hook ::= Z.to_euclidean_division_equations.

Section Decimal.
Local Open Scope N_scope.

Lemma fixed_digits_length k n : length (fixed_digits k n) = k.
Proof.
  revert n. induction k as [|k IH]; intros n; cbn [fixed_digits]; [done|].
  rewrite length_app, IH. simpl. lia.
Qed.

Lemma fixed_digits_are_digits k n : Forall is_digit (fixed_digits k n).
Proof.
  revert n. induction k as [|k IH]; intros n; cbn [fixed_digits]; [constructor|].
  apply Forall_app. split; [apply IH|].
  constructor; [|constructor]. unfold is_digit.
  pose proof (N.mod_upper_bound n 10 ltac:(lia)). lia.
Qed.

Lemma fixed_digits_zero k : fixed_digits k 0 = replicate k 0x30.
Proof.
  induction k as [|k IH]; cbn [fixed_digits]; [done|].
  change (0 / 10) with 0. rewrite IH.
  change [0x30 + 0 mod 10] with (replicate 1 0x30).
  rewrite <- replicate_add. f_equal. lia.
Qed.

Lemma decimal_value_snoc s c :
  decimal_value (s ++ [c]) = 10 * decimal_value s + (c - 0x30).
Proof. unfold decimal_value. by rewrite fold_left_app. Qed.

(** [k] digits spell the number, as long as it fits. *)
Lemma decimal_value_fixed_digits k n :
  decimal_value (fixed_digits k n) = n mod 10 ^ N.of_nat k.
Proof.
  revert n. induction k as [|k IH]; intros n.
  - simpl. by rewrite N.mod_1_r.
  - cbn [fixed_digits]. rewrite decimal_value_snoc, IH.
    rewrite Nat2N.inj_succ, N.pow_succ_r'.
    replace (0x30 + n mod 10 - 0x30) with (n mod 10) by lia.
    rewrite (N.Div0.mod_mul_r n 10 (10 ^ N.of_nat k)). lia.
Qed.

Lemma digits_enough_fuel fuel n : n < 2 ^ N.of_nat fuel → n < 10 ^ N.of_nat fuel.
Proof.
  intros H. eapply N.lt_le_trans; [exact H|].
  apply N.pow_le_mono_l. lia.
Qed.

(** Padding the digits of [n] to width [k] gives its [k] fixed digits. *)
Lemma digits_padded k : ∀ fuel n,
  (1 ≤ k)%nat → (1 ≤ fuel)%nat →
  n < 10 ^ N.of_nat k → n < 10 ^ N.of_nat fuel →
  (length (digits fuel n) ≤ k)%nat ∧
  replicate (k - length (digits fuel n)) 0x30 ++ digits fuel n
  = fixed_digits k n.
Proof.
  induction k as [|k IH]; intros fuel n Hk Hf Hn Hfuel; [lia|].
  destruct fuel as [|fuel]; [lia|].
  cbn [digits fixed_digits]. destruct (N.ltb_spec n 10) as [Hlt|Hge].
  - rewrite (N.div_small n 10), (N.mod_small n 10) by done.
    rewrite fixed_digits_zero. simpl length.
    split; [lia|]. by replace (S k - 1)%nat with k by lia.
  - assert (Hpos : ∀ j, n < 10 ^ N.of_nat j → (1 ≤ j)%nat).
    { intros [|j] Hj; [|lia]. simpl in Hj. lia. }
    assert (Hdiv : ∀ j, n < 10 ^ N.of_nat (S j) → n / 10 < 10 ^ N.of_nat j).
    { intros j Hj. rewrite Nat2N.inj_succ, N.pow_succ_r' in Hj.
      apply N.Div0.div_lt_upper_bound. lia. }
    assert (Hten : ∀ j, n < 10 ^ N.of_nat (S j) → (1 ≤ j)%nat).
    { intros [|j] Hj; [|lia]. change (10 ^ N.of_nat 1) with 10 in Hj. lia. }
    destruct (IH fuel (n / 10) (Hten _ Hn) (Hten _ Hfuel)
                (Hdiv _ Hn) (Hdiv _ Hfuel)) as [Hlen Heq].
    rewrite length_app. simpl length. split; [lia|].
    rewrite <- Heq, <- app_assoc. do 2 f_equal. lia.
Qed.

Lemma log2_fuel n : n < 10 ^ N.of_nat (S (N.to_nat (N.log2 n))).
Proof.
  apply digits_enough_fuel. rewrite Nat2N.inj_succ, N2Nat.id.
  destruct (N.eq_dec n 0) as [->|Hn]; [done|].
  apply N.log2_spec. lia.
Qed.

(** The [05d] format of a number below 100000 is its five digits. *)
Lemma format_05d_five_digits z :
  (0 ≤ z < 100000)%Z → format_05d z = fixed_digits 5 (Z.to_N z).
Proof.
  intros Hz. unfold format_05d.
  destruct (Z.ltb_spec z 0) as [?|_]; [lia|].
  replace (Z.abs_N z) with (Z.to_N z) by lia.
  apply digits_padded; [lia|lia| |apply log2_fuel].
  change (10 ^ N.of_nat 5) with 100000. lia.
Qed.
End Decimal.

(** ** Hexadecimal digest and [int(_, 16)] *)

Ltac case_compare :=
  repeat match goal with
    | |- context [N.leb ?a ?b] => destruct (N.leb_spec a b)
    | |- context [N.ltb ?a ?b] => destruct (N.ltb_spec a b)
    end.

Section Hex.
Local Open Scope N_scope.

Lemma hex_value_hex_digit d :
  d < 16 → hex_value (Sha256.hex_digit d) = Some d.
Proof.
  intros Hd. unfold Sha256.hex_digit, hex_value.
  case_compare; simpl; try lia; f_equal; lia.
Qed.

Lemma int16_from_hex bs : ∀ acc,
  Forall (λ b, b < 256) bs →
  int16_from acc
    (flat_map (λ b, [Sha256.hex_digit (b / 16); Sha256.hex_digit (b mod 16)]) bs)
  = Some (fold_left (λ a b, 256 * a + b) bs acc).
Proof.
  induction bs as [|b bs IH]; intros acc Hbs; [done|].
  apply Forall_cons in Hbs as [Hb Hbs].
  cbn [flat_map app int16_from fold_left].
  rewrite !hex_value_hex_digit by lia.
  rewrite IH by done. do 2 f_equal. lia.
Qed.

Lemma be_bytes_are_bytes width x :
  Forall (λ b, b < 256) (Sha256.be_bytes width x).
Proof.
  induction width as [|w IH]; cbn [Sha256.be_bytes]; constructor; [|done].
  apply N.mod_upper_bound. lia.
Qed.

Lemma digest_are_bytes msg : Forall (λ b, b < 256) (Sha256.digest msg).
Proof.
  unfold Sha256.digest. cbn [flat_map].
  repeat (apply Forall_app; split); auto using be_bytes_are_bytes.
Qed.

Lemma digest_length msg : length (Sha256.digest msg) = 32%nat.
Proof. unfold Sha256.digest. by cbn [flat_map Sha256.be_bytes app length]. Qed.

(** A hexdigest always reads back, as the number its 32 bytes spell. *)
Lemma int_16_hexdigest msg :
  int_16 (Sha256.hexdigest msg)
  = Returns (Z.of_N (Sha256.be_value (Sha256.digest msg))).
Proof.
  unfold int_16, Sha256.hexdigest.
  rewrite int16_from_hex by apply digest_are_bytes.
  pose proof (digest_length msg) as Hlen.
  destruct (Sha256.digest msg) as [|b bs]; [done|].
  reflexivity.
Qed.
End Hex.

(** ** UTF-8 *)

(** One, two, three and four bytes: "A", e acute, the euro sign and an
    emoji. *)
Example encode_by_width :
  encode [0x41; 0xE9; 0x20AC; 0x1F600]%N
  = Returns [0x41; 0xC3; 0xA9; 0xE2; 0x82; 0xAC; 0xF0; 0x9F; 0x98; 0x80]%N.
Proof. vm_compute. reflexivity. Qed.

Section Utf8.
Local Open Scope N_scope.

Lemma utf8_char_scalar_value c :
  scalar_value c = true → is_Some (utf8_char c).
Proof.
  unfold scalar_value, utf8_char, is_surrogate.
  case_compare; simpl; intros; eauto; discriminate.
Qed.

Lemma utf8_char_surrogate c : is_surrogate c = true → utf8_char c = None.
Proof.
  unfold utf8_char, is_surrogate.
  case_compare; simpl; intros; try done; lia.
Qed.

(** Text without surrogates always encodes. *)
Lemma encode_from_well_formed s : ∀ pos,
  well_formed s → ∃ bytes, encode_from pos s = Returns bytes.
Proof.
  induction s as [|c s IH]; intros pos Hs; [by eexists|].
  apply Forall_cons in Hs as [Hc Hs].
  destruct (utf8_char_scalar_value c Hc) as [bs Hbs].
  destruct (IH (S pos) Hs) as [bytes Hbytes].
  exists (bs ++ bytes). cbn [encode_from]. by rewrite Hbs, Hbytes.
Qed.

Lemma encode_well_formed s : well_formed s → ∃ bytes, encode s = Returns bytes.
Proof. apply encode_from_well_formed. Qed.

Lemma well_formed_app s1 s2 :
  well_formed (s1 ++ s2) ↔ well_formed s1 ∧ well_formed s2.
Proof. apply Forall_app. Qed.
End Utf8.

(** ** The identifier generator *)

Section Generator.
Variable unicode_upper : N → pystr.

Abbreviation generate :=
  (generate_deterministic_unique_id_with_initials unicode_upper).

Lemma primary_contact_of_spec phone email :
  primary_contact_of phone email = primary_contact phone email.
Proof. unfold primary_contact. by destruct phone. Qed.

Lemma residue_in_range (n : N) :
  (0 ≤ Z.of_N n `mod` 100000 < 100000)%Z
  ∧ Z.to_N (Z.of_N n `mod` 100000) = (n mod 100000)%N.
Proof. lia. Qed.

Lemma residue_unfold bytes :
  residue bytes = (Sha256.be_value (Sha256.digest bytes) mod 100000)%N.
Proof. reflexivity. Qed.

(** What [generate] computes once its seven arguments have been
    normalized and the concatenation encoded. *)
Lemma generate_returns
    (v_first v_middle v_last v_kendra v_zone v_email v_phone : value)
    (first middle last kendra zone email phone : pystr) (bytes : pybytes) :
  normalize v_first = Returns first →
  normalize v_middle = Returns middle →
  normalize v_last = Returns last →
  normalize v_kendra = Returns kendra →
  normalize v_zone = Returns zone →
  normalize v_email = Returns email →
  normalize v_phone = Returns phone →
  encode (first ++ middle ++ last ++ kendra ++ zone
          ++ primary_contact_of phone email) = Returns bytes →
  generate v_first v_middle v_last v_kendra v_zone v_email v_phone
  = Returns (initials_of unicode_upper first last ++ lit "-"
             ++ fixed_digits 5 (residue bytes)).
Proof.
  intros H1 H2 H3 H4 H5 H6 H7 Henc.
  unfold generate_deterministic_unique_id_with_initials.
  rewrite H1, H2, H3, H4, H5, H6, H7. cbn [mbind result_bind].
  rewrite Henc. cbn [mbind result_bind].
  rewrite int_16_hexdigest. cbn [mbind result_bind].
  destruct (residue_in_range (Sha256.be_value (Sha256.digest bytes)))
    as [Hrange Hres].
  rewrite format_05d_five_digits by exact Hrange.
  by rewrite Hres, residue_unfold.
Qed.

(** C1.  For seven inputs that normalize to the strings [first], ...,
    [phone] (a missing value to the empty string), [generate] returns
    INITIALS, a dash and five digits: the digits are those of the SHA-256
    digest of the UTF-8 bytes of
    [first + middle + last + kendra + zone + PRIMARY_CONTACT]
    (PRIMARY_CONTACT being [phone] if non-empty, else [email]), read as a
    big-endian number, reduced modulo 100000 and zero-padded to width
    five. *)
Theorem generate_as_specified
    (v_first v_middle v_last v_kendra v_zone v_email v_phone : value)
    (first middle last kendra zone email phone : pystr) (bytes : pybytes) :
  normalize v_first = Returns first →
  normalize v_middle = Returns middle →
  normalize v_last = Returns last →
  normalize v_kendra = Returns kendra →
  normalize v_zone = Returns zone →
  normalize v_email = Returns email →
  normalize v_phone = Returns phone →
  encode (concatenation first middle last kendra zone
            (primary_contact phone email)) = Returns bytes →
  normalize (Scalar SNull) = Returns []
  ∧ generate v_first v_middle v_last v_kendra v_zone v_email v_phone
    = Returns (initials_of unicode_upper first last ++ lit "-"
               ++ fixed_digits 5
                    (Sha256.be_value (Sha256.digest bytes) mod 100000)%N).
Proof.
  intros H1 H2 H3 H4 H5 H6 H7 Henc. split; [done|].
  rewrite <- residue_unfold.
  apply (generate_returns _ _ _ _ _ _ _ _ _ _ _ _ _ _ _
           H1 H2 H3 H4 H5 H6 H7).
  rewrite primary_contact_of_spec. rewrite <- Henc.
  unfold concatenation. cbn [concat]. by rewrite app_nil_r.
Qed.

Lemma concatenation_unfold first middle last kendra zone contact :
  concatenation first middle last kendra zone contact
  = first ++ middle ++ last ++ kendra ++ zone ++ contact.
Proof. unfold concatenation. cbn [concat]. by rewrite app_nil_r. Qed.

(** With well-formed text nothing in [generate] can raise. *)
Lemma generate_total
    (v_first v_middle v_last v_kendra v_zone v_email v_phone : value)
    (first middle last kendra zone email phone : pystr) :
  normalize v_first = Returns first →
  normalize v_middle = Returns middle →
  normalize v_last = Returns last →
  normalize v_kendra = Returns kendra →
  normalize v_zone = Returns zone →
  normalize v_email = Returns email →
  normalize v_phone = Returns phone →
  well_formed (concatenation first middle last kendra zone
                 (primary_contact phone email)) →
  ∃ bytes,
    encode (concatenation first middle last kendra zone
              (primary_contact phone email)) = Returns bytes
    ∧ generate v_first v_middle v_last v_kendra v_zone v_email v_phone
      = Returns (initials_of unicode_upper first last ++ lit "-"
                 ++ fixed_digits 5 (residue bytes)).
Proof.
  intros H1 H2 H3 H4 H5 H6 H7 Hwf.
  destruct (encode_well_formed _ Hwf) as [bytes Hbytes].
  exists bytes. split; [done|].
  apply (generate_returns _ _ _ _ _ _ _ _ _ _ _ _ _ _ _
           H1 H2 H3 H4 H5 H6 H7).
  by rewrite primary_contact_of_spec, <- concatenation_unfold.
Qed.

Lemma upper_char_letter c :
  is_letter c →
  ∃ u, upper_char unicode_upper c = [u] ∧ is_upper_letter u.
Proof.
  unfold is_letter, is_upper_letter, is_lower_letter, upper_char.
  intros Hc. case_compare; simpl; try lia; eexists; (split; [done|lia]).
Qed.

Lemma upper_char_other c :
  (c < 0x80)%N → ¬ is_lower_letter c → upper_char unicode_upper c = [c].
Proof.
  unfold is_lower_letter, upper_char.
  intros Hc Hlow. case_compare; simpl; try done; lia.
Qed.

Lemma dash_not_digit ds : Forall is_digit ds → 0x2D%N ∉ ds.
Proof.
  intros Hds Hin. rewrite Forall_forall in Hds.
  specialize (Hds _ Hin). unfold is_digit in Hds. lia.
Qed.

(** C3, as amended.  On well-formed text [generate] returns INITIALS, a
    dash and DIGITS.  DIGITS is exactly five decimal digits (so it holds
    no dash) spelling a number below 100000.  INITIALS is empty when
    [first] or [last] is, and otherwise the uppercase of the first
    character of [first] followed by that of [last]: two uppercase
    letters when both characters are ASCII letters, while an ASCII
    character that is no lowercase letter is taken as it is. *)
Theorem identifier_shape
    (v_first v_middle v_last v_kendra v_zone v_email v_phone : value)
    (first middle last kendra zone email phone : pystr) :
  normalize v_first = Returns first →
  normalize v_middle = Returns middle →
  normalize v_last = Returns last →
  normalize v_kendra = Returns kendra →
  normalize v_zone = Returns zone →
  normalize v_email = Returns email →
  normalize v_phone = Returns phone →
  well_formed (concatenation first middle last kendra zone
                 (primary_contact phone email)) →
  ∃ letters ds,
    generate v_first v_middle v_last v_kendra v_zone v_email v_phone
    = Returns (letters ++ lit "-" ++ ds)
    ∧ length ds = 5%nat ∧ Forall is_digit ds ∧ (0x2D%N ∉ ds)
    ∧ (decimal_value ds < 100000)%N
    ∧ (first = [] ∨ last = [] → letters = [])
    ∧ (∀ c1 rest1 c2 rest2,
         first = c1 :: rest1 → last = c2 :: rest2 →
         letters = upper_char unicode_upper c1 ++ upper_char unicode_upper c2
         ∧ (is_letter c1 → is_letter c2 →
            ∃ u1 u2, letters = [u1; u2]
                     ∧ is_upper_letter u1 ∧ is_upper_letter u2)
         ∧ ((c1 < 0x80)%N → ¬ is_lower_letter c1 →
            (c2 < 0x80)%N → ¬ is_lower_letter c2 → letters = [c1; c2])).
Proof.
  intros H1 H2 H3 H4 H5 H6 H7 Hwf.
  destruct (generate_total _ _ _ _ _ _ _ _ _ _ _ _ _ _
              H1 H2 H3 H4 H5 H6 H7 Hwf) as (bytes & _ & Hgen).
  exists (initials_of unicode_upper first last),
         (fixed_digits 5 (residue bytes)).
  split; [exact Hgen|].
  split; [apply fixed_digits_length|].
  split; [apply fixed_digits_are_digits|].
  split; [apply dash_not_digit, fixed_digits_are_digits|].
  split.
  { rewrite decimal_value_fixed_digits.
    change (10 ^ N.of_nat 5)%N with 100000%N.
    apply N.mod_upper_bound. lia. }
  split.
  { intros [-> | ->]; [done|]. by destruct first. }
  intros c1 rest1 c2 rest2 -> ->. cbn [initials_of].
  split; [done|]. split.
  - intros Hc1 Hc2.
    destruct (upper_char_letter c1 Hc1) as (u1 & -> & Hu1).
    destruct (upper_char_letter c2 Hc2) as (u2 & -> & Hu2).
    by exists u1, u2.
  - intros ? ? ? ?. by rewrite !upper_char_other.
Qed.

(** C4.  When the normalized first and last names are both non-empty the
    identifier starts with the uppercase of the first character of
    [first] followed by the uppercase of the first character of [last];
    when either is empty, INITIALS is empty and the identifier starts
    with the dash. *)
Theorem initials_rule
    (v_first v_middle v_last v_kendra v_zone v_email v_phone : value)
    (first middle last kendra zone email phone : pystr) :
  normalize v_first = Returns first →
  normalize v_middle = Returns middle →
  normalize v_last = Returns last →
  normalize v_kendra = Returns kendra →
  normalize v_zone = Returns zone →
  normalize v_email = Returns email →
  normalize v_phone = Returns phone →
  well_formed (concatenation first middle last kendra zone
                 (primary_contact phone email)) →
  ∃ id,
    generate v_first v_middle v_last v_kendra v_zone v_email v_phone
    = Returns id
    ∧ (∀ c1 rest1 c2 rest2,
         first = c1 :: rest1 → last = c2 :: rest2 →
         prefix (upper_char unicode_upper c1 ++ upper_char unicode_upper c2)
                id)
    ∧ (first = [] ∨ last = [] →
       initials_of unicode_upper first last = []
       ∧ prefix (lit "-") id).
Proof.
  intros H1 H2 H3 H4 H5 H6 H7 Hwf.
  destruct (generate_total _ _ _ _ _ _ _ _ _ _ _ _ _ _
              H1 H2 H3 H4 H5 H6 H7 Hwf) as (bytes & _ & Hgen).
  eexists. split; [exact Hgen|]. split.
  - intros c1 rest1 c2 rest2 -> ->. cbn [initials_of].
    by apply prefix_app_r.
  - intros Hempty.
    assert (initials_of unicode_upper first last = []) as ->.
    { destruct Hempty as [-> | ->]; [done|]. by destruct first. }
    split; [done|]. rewrite app_nil_l. by apply prefix_app_r.
Qed.

Lemma normalize_scalar x : ∃ s, normalize (Scalar x) = Returns s.
Proof. destruct x; eauto. Qed.

(** C5.  With a non-empty phone the email has no influence: any two
    email values give the same result, all else being equal. *)
Theorem email_ignored_when_phone
    (first_name middle_name last_name kendra zone phone : value)
    (e1 e2 : scalar) (p : pystr) :
  normalize phone = Returns p → p ≠ [] →
  generate first_name middle_name last_name kendra zone (Scalar e1) phone
  = generate first_name middle_name last_name kendra zone (Scalar e2) phone.
Proof.
  intros Hp Hne.
  unfold generate_deterministic_unique_id_with_initials.
  destruct (normalize first_name) as [f|]; [|done].
  destruct (normalize last_name) as [l|]; [|done].
  destruct (normalize middle_name) as [m|]; [|done].
  destruct (normalize kendra) as [k|]; [|done].
  destruct (normalize zone) as [z|]; [|done].
  destruct (normalize_scalar e1) as [s1 ->].
  destruct (normalize_scalar e2) as [s2 ->].
  rewrite Hp. cbn [mbind result_bind].
  by destruct p.
Qed.

(** C8.  The identifier is a function of the seven normalized fields:
    two calls whose arguments normalize alike give the same result. *)
Theorem generate_deterministic
    (a1 a2 a3 a4 a5 a6 a7 b1 b2 b3 b4 b5 b6 b7 : value) :
  normalize a1 = normalize b1 → normalize a2 = normalize b2 →
  normalize a3 = normalize b3 → normalize a4 = normalize b4 →
  normalize a5 = normalize b5 → normalize a6 = normalize b6 →
  normalize a7 = normalize b7 →
  generate a1 a2 a3 a4 a5 a6 a7 = generate b1 b2 b3 b4 b5 b6 b7.
Proof.
  intros H1 H2 H3 H4 H5 H6 H7.
  unfold generate_deterministic_unique_id_with_initials.
  by rewrite H1, H2, H3, H4, H5, H6, H7.
Qed.

(** C9.  Field boundaries are lost in the concatenation: first "Jo" with
    last "hn" and first "John" with last "" give the same concatenation
    whatever the other fields, hence the same five digits; only the
    initials differ ("JH" against none). *)
Theorem field_boundary_collision
    (v_kendra v_zone v_email v_phone : value)
    (kendra zone email phone : pystr) :
  normalize v_kendra = Returns kendra →
  normalize v_zone = Returns zone →
  normalize v_email = Returns email →
  normalize v_phone = Returns phone →
  well_formed (kendra ++ zone ++ primary_contact phone email) →
  concatenation (lit "Jo") [] (lit "hn") kendra zone
    (primary_contact phone email)
  = concatenation (lit "John") [] [] kendra zone
      (primary_contact phone email)
  ∧ ∃ ds,
      length ds = 5%nat ∧ Forall is_digit ds
      ∧ generate (Scalar (SStr (lit "Jo"))) (Scalar (SStr []))
          (Scalar (SStr (lit "hn"))) v_kendra v_zone v_email v_phone
        = Returns (lit "JH" ++ lit "-" ++ ds)
      ∧ generate (Scalar (SStr (lit "John"))) (Scalar (SStr []))
          (Scalar (SStr [])) v_kendra v_zone v_email v_phone
        = Returns (lit "-" ++ ds).
Proof.
  intros H4 H5 H6 H7 Hwf.
  assert (Hcat :
    concatenation (lit "Jo") [] (lit "hn") kendra zone
      (primary_contact phone email)
    = concatenation (lit "John") [] [] kendra zone
        (primary_contact phone email)).
  { by rewrite !concatenation_unfold. }
  split; [exact Hcat|].
  assert (Hwf' : well_formed
    (concatenation (lit "John") [] [] kendra zone
       (primary_contact phone email))).
  { rewrite concatenation_unfold. apply well_formed_app. split; [|done].
    repeat constructor. }
  destruct (generate_total (Scalar (SStr (lit "John"))) (Scalar (SStr []))
              (Scalar (SStr [])) _ _ _ _ _ _ _ _ _ _ _
              eq_refl eq_refl eq_refl H4 H5 H6 H7 Hwf')
    as (bytes & Henc & Hgen2).
  rewrite <- Hcat in Hwf', Henc.
  destruct (generate_total (Scalar (SStr (lit "Jo"))) (Scalar (SStr []))
              (Scalar (SStr (lit "hn"))) _ _ _ _ _ _ _ _ _ _ _
              eq_refl eq_refl eq_refl H4 H5 H6 H7 Hwf')
    as (bytes' & Henc' & Hgen1).
  assert (bytes' = bytes) as -> by congruence.
  exists (fixed_digits 5 (residue bytes)).
  split; [apply fixed_digits_length|].
  split; [apply fixed_digits_are_digits|].
  split; [exact Hgen1 | exact Hgen2].
Qed.
End Generator.

(** ** The batch applicator *)

Section Batch.
Variable unicode_upper : N → pystr.

Abbreviation entry := (row_entry unicode_upper).
Abbreviation row_id := (row_unique_id unicode_upper).

(** The loop, in one step: an entry per row, in order, and the errors
    shown. *)
Lemma for_rows_spec column_mapping columns rows : ∀ index unique_ids errors,
  for_rows unicode_upper column_mapping columns index rows unique_ids errors
  = (unique_ids ++ (entry column_mapping columns <$> rows),
     errors ++ rows_errors unicode_upper column_mapping columns index rows).
Proof.
  induction rows as [|row rows IH]; intros index unique_ids errors.
  - cbn. by rewrite !app_nil_r.
  - cbn [for_rows rows_errors fmap list_fmap]. unfold row_entry at 1.
    destruct (row_unique_id _ _ _ row) as [unique_id|e];
      rewrite IH, <- !app_assoc; reflexivity.
Qed.

Lemma rows_errors_elem column_mapping columns rows : ∀ index (i : nat) row e,
  rows !! i = Some row →
  row_id column_mapping columns row = Raises e →
  ((index + Z.of_nat i + 1)%Z, e)
  ∈ rows_errors unicode_upper column_mapping columns index rows.
Proof.
  induction rows as [|r rows IH]; intros index i row e Hi He; [done|].
  destruct i as [|i]; cbn [rows_errors].
  - injection Hi as ->. rewrite He.
    replace (index + Z.of_nat 0 + 1)%Z with (index + 1)%Z by lia.
    apply list_elem_of_here.
  - cbn in Hi. specialize (IH (index + 1)%Z i row e Hi He).
    replace (index + 1 + Z.of_nat i + 1)%Z
      with (index + Z.of_nat (S i) + 1)%Z in IH by lia.
    destruct (row_unique_id _ _ _ r); [done|].
    by apply list_elem_of_further.
Qed.

(** Inserting a leading column under a new label. *)
Lemma insert_leading column value t :
  column ∉ columns t → length value = length (rows t) →
  insert 0 column value t
  = Returns {| columns := column :: columns t;
               rows := zip_with cons value (rows t) |}.
Proof.
  intros Hnew Hlen. unfold insert.
  rewrite decide_False by done.
  rewrite decide_False by lia.
  rewrite decide_False by (intros ?; done).
  reflexivity.
Qed.

Lemma insert_existing at_ column value t :
  column ∈ columns t →
  insert at_ column value t = Raises (ValueError ColumnAlreadyExists).
Proof. intros Hin. unfold insert. by rewrite decide_True. Qed.

Lemma fresh_loc_new (w : world) : objs w !! fresh (dom (objs w)) = None.
Proof. apply not_elem_of_dom, is_fresh. Qed.

(** [process_dataframe], in one step. *)
Lemma process_dataframe_spec df column_mapping w t :
  objs w !! df = Some t →
  let new := fresh (dom (objs w)) in
  let ids := entry column_mapping (columns t) <$> rows t in
  let errors :=
    st_errors w ++ rows_errors unicode_upper column_mapping (columns t) 0 (rows t) in
  new ≠ df ∧
  process_dataframe unicode_upper df column_mapping w
  = Some (match insert 0 (lit "Unique_ID") (SStr <$> ids) t with
          | Returns t' =>
              (Returns new, World (<[new := t']> (<[new := t]> (objs w))) errors)
          | Raises e => (Raises e, World (<[new := t]> (objs w)) errors)
          end).
Proof.
  intros Hdf new ids errors.
  assert (Hnew : new ≠ df).
  { intros Heq. pose proof (fresh_loc_new w) as Hfresh.
    fold new in Hfresh. rewrite Heq in Hfresh. congruence. }
  split; [exact Hnew|].
  unfold process_dataframe, copy. rewrite Hdf. cbn [mbind option_bind].
  cbn [objs st_errors]. rewrite lookup_insert_ne by exact Hnew.
  rewrite Hdf. cbn [mbind option_bind].
  rewrite for_rows_spec. cbn [app].
  unfold insert_in_place. cbn [objs st_errors].
  rewrite lookup_insert_eq. cbn [mbind option_bind].
  fold new ids errors.
  by destruct (insert 0 (lit "Unique_ID") (SStr <$> ids) t).
Qed.

(** C6, as amended.  For a table of N rows with no column named
    [Unique_ID], and any mapping, [process_dataframe] returns a new table
    of exactly N rows whose columns are [Unique_ID] followed by the
    original ones, and whose row [i] is the entry of input row [i] (its
    identifier, or the sentinel) followed by the cells of input row [i]. *)
Theorem process_dataframe_augments df column_mapping w t :
  objs w !! df = Some t →
  lit "Unique_ID" ∉ columns t →
  ∃ processed_df w' t',
    process_dataframe unicode_upper df column_mapping w = Some (Returns processed_df, w')
    ∧ objs w' !! processed_df = Some t'
    ∧ columns t' = lit "Unique_ID" :: columns t
    ∧ length (rows t') = length (rows t)
    ∧ ∀ (i : nat) row,
        rows t !! i = Some row →
        rows t' !! i
        = Some (SStr (entry column_mapping (columns t) row) :: row).
Proof.
  intros Hdf Hnew.
  destruct (process_dataframe_spec df column_mapping w t Hdf) as [_ Hrun].
  cbv zeta in Hrun.
  rewrite insert_leading in Hrun by (done || by rewrite !length_fmap).
  eexists _, _, _. split; [exact Hrun|].
  cbn [objs columns rows]. split; [apply lookup_insert_eq|].
  split; [done|]. split.
  - cbn [rows]. rewrite length_zip_with, !length_fmap. lia.
  - intros i row Hi. cbn [rows].
    rewrite lookup_zip_with, !list_lookup_fmap, Hi. reflexivity.
Qed.

(** C7, as amended.  For a table with no column named [Unique_ID], the
    batch completes and gives one entry per input row.  A row whose
    extraction or generation raises gets the entry "ERROR", and the
    exception is shown with the row's number; a row that raises nothing
    gets its identifier.  Either way the entry of a row is decided by that
    row alone, whatever happens to the others. *)
Theorem process_dataframe_isolates_failures df column_mapping w t :
  objs w !! df = Some t →
  lit "Unique_ID" ∉ columns t →
  ∃ processed_df w' t' ids,
    process_dataframe unicode_upper df column_mapping w = Some (Returns processed_df, w')
    ∧ objs w' !! processed_df = Some t'
    ∧ getitem t' (lit "Unique_ID") = Returns (SStr <$> ids)
    ∧ length (rows t') = length (rows t)
    ∧ length ids = length (rows t)
    ∧ ∀ (i : nat) row,
        rows t !! i = Some row →
        (∀ e, row_id column_mapping (columns t) row = Raises e →
              ids !! i = Some (lit "ERROR")
              ∧ ((Z.of_nat i + 1)%Z, e) ∈ st_errors w')
        ∧ (∀ unique_id,
              row_id column_mapping (columns t) row = Returns unique_id →
              ids !! i = Some unique_id).
Proof.
  intros Hdf Hnew.
  destruct (process_dataframe_spec df column_mapping w t Hdf) as [_ Hrun].
  cbv zeta in Hrun.
  rewrite insert_leading in Hrun by (done || by rewrite !length_fmap).
  eexists _, _, _, (entry column_mapping (columns t) <$> rows t).
  split; [exact Hrun|].
  cbn [objs st_errors]. split; [apply lookup_insert_eq|].
  split.
  { unfold getitem. cbn [columns rows list_find].
    rewrite decide_True by done. cbn [fmap option_fmap option_map].
    f_equal. apply list_eq. intros i.
    rewrite !list_lookup_fmap, lookup_zip_with, !list_lookup_fmap.
    by destruct (rows t !! i). }
  cbn [rows]. split; [rewrite length_zip_with, !length_fmap; lia|].
  split; [by rewrite length_fmap|].
  intros i row Hi. rewrite list_lookup_fmap, Hi. cbn.
  unfold row_entry. split.
  - intros e He. rewrite He. split; [done|].
    apply elem_of_app. right.
    by apply (rows_errors_elem _ _ _ 0%Z i row e).
  - intros unique_id Hid. by rewrite Hid.
Qed.

(** C10.  [process_dataframe] leaves its input alone: whether it returns
    or raises, the table at [df], and every other table that existed, is
    afterwards what it was before. *)
Theorem process_dataframe_preserves_input df column_mapping w t :
  objs w !! df = Some t →
  ∃ outcome w',
    process_dataframe unicode_upper df column_mapping w = Some (outcome, w')
    ∧ objs w' !! df = Some t
    ∧ ∀ other t0, objs w !! other = Some t0 → objs w' !! other = Some t0.
Proof.
  intros Hdf.
  destruct (process_dataframe_spec df column_mapping w t Hdf) as [Hne Hrun].
  cbv zeta in Hrun.
  assert (Hkept : ∀ other t0 t1 t2,
    objs w !! other = Some t0 →
    (<[fresh (dom (objs w)) := t1]> (objs w)) !! other = Some t0
    ∧ (<[fresh (dom (objs w)) := t2]>
         (<[fresh (dom (objs w)) := t1]> (objs w))) !! other = Some t0).
  { intros other t0 t1 t2 Hother.
    assert (fresh (dom (objs w)) ≠ other).
    { intros <-. rewrite fresh_loc_new in Hother. done. }
    by rewrite !lookup_insert_ne. }
  destruct (insert 0 (lit "Unique_ID") _ t) as [t'|e];
    eexists _, _; (split; [exact Hrun|]); cbn [objs];
    (split; [|intros other t0 Hother]); by eapply Hkept.
Qed.

(** The statistics in [main]. *)

Lemma remove_dups_cons {A} `{EqDecision A} (x : A) (l : list A) :
  remove_dups (x :: l)
  = if decide (x ∈ l) then remove_dups l else x :: remove_dups l.
Proof. reflexivity. Qed.

Lemma remove_dups_repeats (l : list scalar) :
  (length (remove_dups l) + repeats l = length l)%nat.
Proof.
  induction l as [|x l IH]; [done|].
  rewrite remove_dups_cons. cbn [repeats].
  case_decide; cbn [length]; lia.
Qed.

Lemma remove_dups_without {A} `{EqDecision A} (a : A) (l : list A) :
  length (remove_dups l)
  = (length (remove_dups (filter (λ x, x ≠ a) l))
     + if decide (a ∈ l) then 1 else 0)%nat.
Proof.
  induction l as [|x l IH]; [done|].
  rewrite remove_dups_cons.
  destruct (decide (x = a)) as [->|Hxa].
  - rewrite filter_cons_False by (intros ?; done).
    rewrite (decide_True (P := a ∈ a :: l)) by apply list_elem_of_here.
    destruct (decide (a ∈ l)); cbn [length]; lia.
  - rewrite filter_cons_True by done. rewrite remove_dups_cons.
    assert (Hin : x ∈ filter (λ y, y ≠ a) l ↔ x ∈ l).
    { rewrite list_elem_of_filter. tauto. }
    assert (Ha : a ∈ x :: l ↔ a ∈ l).
    { rewrite elem_of_cons. split; [|tauto].
      intros [Heq|?]; [by symmetry in Heq|done]. }
    destruct (decide (x ∈ l)), (decide (x ∈ filter (λ y, y ≠ a) l));
      try tauto;
      destruct (decide (a ∈ l)), (decide (a ∈ x :: l));
      try tauto; cbn [length]; lia.
Qed.

Lemma remove_dups_fmap_SStr (ids : list pystr) :
  length (remove_dups (SStr <$> ids)) = length (remove_dups ids).
Proof.
  induction ids as [|x ids IH]; [done|].
  rewrite fmap_cons, !remove_dups_cons.
  assert (Hin : SStr x ∈ SStr <$> ids ↔ x ∈ ids).
  { rewrite list_elem_of_fmap. split; [|by eauto].
    by intros (y & [= ->] & ?). }
  destruct (decide (SStr x ∈ SStr <$> ids)), (decide (x ∈ ids));
    try tauto; cbn [length]; lia.
Qed.

Lemma filter_notnull_SStr (ids : list pystr) :
  filter (λ x, x ≠ SNull) (SStr <$> ids) = SStr <$> ids.
Proof.
  induction ids as [|x ids IH]; [done|].
  cbn [fmap list_fmap]. rewrite filter_cons_True by done.
  f_equal. exact IH.
Qed.

(** C2, as amended.  For a table whose [Unique_ID] column holds the
    strings [ids], the statistics are: the number of rows; the number of
    distinct values of the column, in which the sentinel "ERROR" counts as
    one value when it occurs; and the difference of the two, which is the
    number of rows whose identifier occurs again further down (a group of
    k equal identifiers adds k - 1). *)
Theorem statistics_of_batch (t : DataFrame) (ids : list pystr) :
  getitem t (lit "Unique_ID") = Returns (SStr <$> ids) →
  ∃ unique_count duplicate_count,
    statistics t = Returns (len t, unique_count, duplicate_count)
    ∧ len t = Z.of_nat (length ids)
    ∧ unique_count = Z.of_nat (length (remove_dups ids))
    ∧ unique_count
      = (Z.of_nat (length (remove_dups (filter (λ x, x ≠ lit "ERROR") ids)))
         + if decide (lit "ERROR" ∈ ids) then 1 else 0)%Z
    ∧ duplicate_count = (len t - unique_count)%Z
    ∧ duplicate_count = Z.of_nat (repeats (SStr <$> ids)).
Proof.
  intros Hcol.
  assert (Hlen : len t = Z.of_nat (length ids)).
  { unfold getitem in Hcol.
    destruct (list_find _ (columns t)) as [[i c]|]; [|done].
    injection Hcol as Hcol. apply (f_equal length) in Hcol.
    rewrite !length_fmap in Hcol. unfold len. by rewrite Hcol. }
  assert (Huniq : nunique (SStr <$> ids) = Z.of_nat (length (remove_dups ids))).
  { unfold nunique. by rewrite filter_notnull_SStr, remove_dups_fmap_SStr. }
  exists (nunique (SStr <$> ids)), (len t - nunique (SStr <$> ids))%Z.
  split; [unfold statistics; by rewrite Hcol|].
  split; [exact Hlen|]. split; [exact Huniq|]. split.
  { rewrite Huniq, (remove_dups_without (lit "ERROR") ids).
    destruct (decide (lit "ERROR" ∈ ids)); lia. }
  split; [done|].
  rewrite Hlen, Huniq.
  pose proof (remove_dups_repeats (SStr <$> ids)) as Hrep.
  rewrite remove_dups_fmap_SStr, length_fmap in Hrep. lia.
Qed.
End Batch.

(** A table for closed examples whose names are ASCII, where the table is
    never consulted. *)
Definition ascii_only : N → pystr := λ c, [c].

Definition text (s : string) : value := Scalar (SStr (lit s)).

(** The specification's example: John Doe, nothing else. *)
Lemma generate_as_specified_witness :
  generate_deterministic_unique_id_with_initials ascii_only
    (text "John") (Scalar SNull) (text "Doe") (text "") (text "")
    (Scalar SNull) (text "")
  = Returns (lit "JD-74319").
Proof.
  etransitivity.
  - eapply (generate_as_specified ascii_only); reflexivity.
  - vm_compute. reflexivity.
Defined.

(** The digits are zero-padded: John Doe with an email. *)
Example generate_zero_padded :
  generate_deterministic_unique_id_with_initials ascii_only
    (text "John") (text "") (text "Doe") (text "") (text "")
    (text "a@x.com") (text "")
  = Returns (lit "JD-00315").
Proof. vm_compute. reflexivity. Qed.

(** A lone surrogate cannot be encoded: [generate] raises. *)
Example generate_raises_on_surrogate :
  generate_deterministic_unique_id_with_initials ascii_only
    (text "John") (text "") (Scalar (SStr [0xD800%N])) (text "") (text "")
    (text "") (text "")
  = Raises (UnicodeEncodeError 4).
Proof. vm_compute. reflexivity. Qed.

(** C3, against the claim as stated: with first "1" and last "2" the
    identifier is "12-40536", whose part before the dash is neither empty
    nor two uppercase letters. *)
Lemma identifier_shape_counterexample :
  generate_deterministic_unique_id_with_initials ascii_only
    (text "1") (text "") (text "2") (text "") (text "") (text "") (text "")
  = Returns (lit "12-40536")
  ∧ ¬ claimed_shape (lit "12-40536").
Proof.
  split; [vm_compute; reflexivity|].
  intros (letters & ds & Heq & Hletters & Hlen & _).
  destruct Hletters as [-> | (u1 & u2 & -> & Hu1 & _)].
  - apply (f_equal length) in Heq. rewrite app_nil_l, length_app, Hlen in Heq.
    vm_compute in Heq. discriminate.
  - vm_compute in Heq. injection Heq as <- _.
    unfold is_upper_letter in Hu1. lia.
Qed.

Lemma identifier_shape_witness :
  ∃ letters ds,
    generate_deterministic_unique_id_with_initials ascii_only
      (text "alice") (Scalar SNull) (text "Smith") (text "") (text "")
      (text "") (Scalar (SInt 555))
    = Returns (letters ++ lit "-" ++ ds)
    ∧ letters = lit "AS" ∧ length ds = 5%nat ∧ Forall is_digit ds.
Proof.
  destruct (identifier_shape ascii_only
              (text "alice") (Scalar SNull) (text "Smith") (text "") (text "")
              (text "") (Scalar (SInt 555))
              (lit "alice") [] (lit "Smith") [] [] [] (lit "555")
              eq_refl eq_refl eq_refl eq_refl eq_refl eq_refl eq_refl
              ltac:(repeat constructor))
    as (letters & ds & Hgen & Hlen & Hds & _ & _ & _ & Hletters).
  exists letters, ds. split; [exact Hgen|].
  split; [|by split].
  by destruct (Hletters _ _ _ _ eq_refl eq_refl) as [-> _].
Defined.

Lemma initials_rule_witness :
  ∃ id,
    generate_deterministic_unique_id_with_initials ascii_only
      (text "john") (text "") (text "doe") (text "") (text "") (text "")
      (text "")
    = Returns id
    ∧ prefix (lit "JD") id.
Proof.
  destruct (initials_rule ascii_only
              (text "john") (text "") (text "doe") (text "") (text "")
              (text "") (text "")
              (lit "john") [] (lit "doe") [] [] [] []
              eq_refl eq_refl eq_refl eq_refl eq_refl eq_refl eq_refl
              ltac:(repeat constructor))
    as (id & Hgen & Hboth & _).
  exists id. split; [exact Hgen|].
  exact (Hboth _ _ _ _ eq_refl eq_refl).
Defined.

Lemma email_ignored_when_phone_witness :
  generate_deterministic_unique_id_with_initials ascii_only
    (text "John") (text "") (text "Doe") (text "") (text "")
    (Scalar (SStr (lit "a@x.com"))) (text "555")
  = generate_deterministic_unique_id_with_initials ascii_only
      (text "John") (text "") (text "Doe") (text "") (text "")
      (Scalar (SStr (lit "anything-else"))) (text "555").
Proof.
  apply (email_ignored_when_phone ascii_only _ _ _ _ _ _ _ _ (lit "555"));
    [reflexivity | discriminate].
Defined.

(** Without a phone the email does count. *)
Example email_counts_without_phone :
  generate_deterministic_unique_id_with_initials ascii_only
    (text "John") (text "") (text "Doe") (text "") (text "")
    (text "a@x.com") (text "")
  ≠ generate_deterministic_unique_id_with_initials ascii_only
      (text "John") (text "") (text "Doe") (text "") (text "")
      (text "") (text "").
Proof. vm_compute. discriminate. Qed.

Lemma generate_deterministic_witness :
  generate_deterministic_unique_id_with_initials ascii_only
    (text "John") (Scalar SNull) (text "Doe") (Scalar SNull) (text "")
    (Scalar SNull) (Scalar (SInt 555))
  = generate_deterministic_unique_id_with_initials ascii_only
      (text "John") (text "") (text "Doe") (text "") (Scalar SNull)
      (text "") (text "555").
Proof. apply generate_deterministic; reflexivity. Defined.

Lemma field_boundary_collision_witness :
  ∃ ds,
    generate_deterministic_unique_id_with_initials ascii_only
      (text "Jo") (text "") (text "hn") (text "K") (text "Z")
      (text "a@x.com") (text "555")
    = Returns (lit "JH-" ++ ds)
    ∧ generate_deterministic_unique_id_with_initials ascii_only
        (text "John") (text "") (text "") (text "K") (text "Z")
        (text "a@x.com") (text "555")
      = Returns (lit "-" ++ ds).
Proof.
  destruct (field_boundary_collision ascii_only
              (text "K") (text "Z") (text "a@x.com") (text "555")
              (lit "K") (lit "Z") (lit "a@x.com") (lit "555")
              eq_refl eq_refl eq_refl eq_refl ltac:(repeat constructor))
    as (_ & ds & _ & _ & H1 & H2).
  exists ds. split; [exact H1 | exact H2].
Defined.

(** *** Closed examples for the batch *)

Definition names_mapping : dict :=
  list_to_map
    [(lit "first_name", lit "First"); (lit "middle_name", []);
     (lit "last_name", lit "Last"); (lit "kendra", []); (lit "zone", []);
     (lit "phone", []); (lit "email", [])].

(** Three rows: the second has a lone surrogate for a last name, the
    third no last name. *)
Definition names_table : DataFrame :=
  {| columns := [lit "First"; lit "Last"];
     rows := [[SStr (lit "John"); SStr (lit "Doe")];
              [SStr (lit "Ann"); SStr [0xDC00%N]];
              [SStr (lit "John"); SNull]] |}.

(** The output of an earlier run, uploaded again. *)
Definition processed_table : DataFrame :=
  {| columns := [lit "Unique_ID"; lit "First"; lit "Last"];
     rows := [[SStr (lit "JD-74319"); SStr (lit "John"); SStr (lit "Doe")]] |}.

(** The same, with a row that cannot be encoded. *)
Definition processed_table_bad_row : DataFrame :=
  {| columns := [lit "Unique_ID"; lit "First"; lit "Last"];
     rows := [[SStr (lit "JD-74319"); SStr (lit "John"); SStr (lit "Doe")];
              [SStr (lit "ERROR"); SStr (lit "Ann"); SStr [0xDC00%N]]] |}.

Definition world_of (t : DataFrame) : world := World {[ 0%nat := t ]} [].

(** The specification's column of identifiers. *)
Definition three_ids : DataFrame :=
  {| columns := [lit "Unique_ID"];
     rows := [[SStr (lit "AB-00001")]; [SStr (lit "CD-00002")];
              [SStr (lit "AB-00001")]] |}.

Example process_names_table :
  ∃ w', process_dataframe ascii_only 0%nat names_mapping (world_of names_table)
        = Some (Returns 1%nat, w')
        ∧ objs w' !! 1%nat
          = Some {| columns := [lit "Unique_ID"; lit "First"; lit "Last"];
                    rows := [[SStr (lit "JD-74319"); SStr (lit "John");
                              SStr (lit "Doe")];
                             [SStr (lit "ERROR"); SStr (lit "Ann");
                              SStr [0xDC00%N]];
                             [SStr (lit "-43258"); SStr (lit "John"); SNull]] |}
        ∧ st_errors w' = [(2%Z, UnicodeEncodeError 3)].
Proof. eexists. split; [vm_compute; reflexivity|]. split; vm_compute; reflexivity. Qed.

(** C6, against the claim as stated: on a table that already has a column
    named [Unique_ID], [process_dataframe] returns no table; the insertion
    of line 70 raises. *)
Lemma process_dataframe_augments_counterexample :
  fst <$> process_dataframe ascii_only 0%nat names_mapping
            (world_of processed_table)
  = Some (Raises (ValueError ColumnAlreadyExists)).
Proof. vm_compute. reflexivity. Qed.

Lemma process_dataframe_augments_witness :
  ∃ processed_df w' t',
    process_dataframe ascii_only 0%nat names_mapping (world_of names_table)
    = Some (Returns processed_df, w')
    ∧ objs w' !! processed_df = Some t'
    ∧ columns t' = [lit "Unique_ID"; lit "First"; lit "Last"]
    ∧ length (rows t') = 3%nat
    ∧ rows t' !! 0%nat
      = Some [SStr (lit "JD-74319"); SStr (lit "John"); SStr (lit "Doe")].
Proof.
  destruct (process_dataframe_augments ascii_only 0%nat names_mapping
              (world_of names_table) names_table)
    as (processed_df & w' & t' & Hrun & Hobj & Hcols & Hlen & Hrows).
  - reflexivity.
  - apply (bool_decide_unpack _). vm_compute. exact I.
  - exists processed_df, w', t'.
    split; [exact Hrun|]. split; [exact Hobj|]. split; [exact Hcols|].
    split; [exact Hlen|].
    rewrite (Hrows 0%nat _ eq_refl). vm_compute. reflexivity.
Defined.

(** C7, against the claim as stated: the batch does not always complete.
    On a table that already has a column named [Unique_ID] the failure of
    row 2 is caught and shown, and then the batch is aborted by the
    exception of line 70 all the same. *)
Lemma process_dataframe_isolates_failures_counterexample :
  ∃ w',
    process_dataframe ascii_only 0%nat names_mapping
      (world_of processed_table_bad_row)
    = Some (Raises (ValueError ColumnAlreadyExists), w')
    ∧ st_errors w' = [(2%Z, UnicodeEncodeError 3)].
Proof. eexists. split; vm_compute; reflexivity. Qed.

Lemma process_dataframe_isolates_failures_witness :
  ∃ processed_df w' t' ids,
    process_dataframe ascii_only 0%nat names_mapping (world_of names_table)
    = Some (Returns processed_df, w')
    ∧ objs w' !! processed_df = Some t'
    ∧ getitem t' (lit "Unique_ID") = Returns (SStr <$> ids)
    ∧ length ids = 3%nat
    ∧ ids !! 0%nat = Some (lit "JD-74319")
    ∧ ids !! 1%nat = Some (lit "ERROR")
    ∧ ((2%Z, UnicodeEncodeError 3) ∈ st_errors w').
Proof.
  destruct (process_dataframe_isolates_failures ascii_only 0%nat names_mapping
              (world_of names_table) names_table)
    as (processed_df & w' & t' & ids & Hrun & Hobj & Hcol & _ & Hlen & Hrows).
  - reflexivity.
  - apply (bool_decide_unpack _). vm_compute. exact I.
  - exists processed_df, w', t', ids.
    split; [exact Hrun|]. split; [exact Hobj|]. split; [exact Hcol|].
    split; [exact Hlen|].
    destruct (Hrows 0%nat _ eq_refl) as [_ Hgood].
    destruct (Hrows 1%nat _ eq_refl) as [Hbad _].
    split; [apply Hgood; vm_compute; reflexivity|].
    apply (Hbad (UnicodeEncodeError 3)). vm_compute. reflexivity.
Defined.

Lemma process_dataframe_preserves_input_witness :
  ∃ outcome w',
    process_dataframe ascii_only 0%nat names_mapping (world_of names_table)
    = Some (outcome, w')
    ∧ objs w' !! 0%nat = Some names_table.
Proof.
  destruct (process_dataframe_preserves_input ascii_only 0%nat names_mapping
              (world_of names_table) names_table eq_refl)
    as (outcome & w' & Hrun & Hkept & _).
  exists outcome, w'. split; [exact Hrun | exact Hkept].
Defined.

(** The input is left alone also when the batch raises. *)
Example process_dataframe_preserves_input_on_raise :
  ∃ e w',
    process_dataframe ascii_only 0%nat names_mapping (world_of processed_table)
    = Some (Raises e, w')
    ∧ objs w' !! 0%nat = Some processed_table.
Proof. eexists _, _. split; vm_compute; reflexivity. Qed.

(** C2, against the claim as stated: for the identifiers
    AB-00001, CD-00002, AB-00001 the duplicate count of lines 258-267 is
    1, where the claim has 2, the number of rows that share their
    identifier. *)
Lemma statistics_of_batch_counterexample :
  statistics three_ids = Returns (3, 2, 1)%Z
  ∧ getitem three_ids (lit "Unique_ID")
    = Returns [SStr (lit "AB-00001"); SStr (lit "CD-00002");
               SStr (lit "AB-00001")]
  ∧ shared_rows [SStr (lit "AB-00001"); SStr (lit "CD-00002");
                 SStr (lit "AB-00001")] = 2%nat.
Proof. repeat split; vm_compute; reflexivity. Qed.

Lemma statistics_of_batch_witness :
  ∃ unique_count duplicate_count,
    statistics three_ids = Returns (3%Z, unique_count, duplicate_count)
    ∧ unique_count = 2%Z ∧ duplicate_count = 1%Z.
Proof.
  destruct (statistics_of_batch three_ids
              [lit "AB-00001"; lit "CD-00002"; lit "AB-00001"] eq_refl)
    as (unique_count & duplicate_count & Hstat & _ & Huniq & _ & _ & Hdup).
  exists unique_count, duplicate_count.
  split; [exact Hstat|]. split; [rewrite Huniq | rewrite Hdup];
    vm_compute; reflexivity.
Defined.

(** The sentinel counts as an identifier among the distinct ones. *)
Example statistics_count_sentinel :
  statistics {| columns := [lit "Unique_ID"];
                rows := [[SStr (lit "ERROR")]; [SStr (lit "AB-00001")];
                         [SStr (lit "ERROR")]] |}
  = Returns (3, 2, 1)%Z.
Proof. vm_compute. reflexivity. Qed.

(** The rows listed under "View Duplicate IDs" are all the members of the
    groups, two here, where the metric above them says 1. *)
Example duplicates_of_three_ids :
  duplicates three_ids
  = Returns [[SStr (lit "AB-00001")]; [SStr (lit "AB-00001")]].
Proof. vm_compute. reflexivity. Qed.

(** * Beyond the identifier and the batch: [main], errors, composition *)

(** ** The two tabs of [main] *)

Module Main.
Import Text Pandas App.
Local Open Scope N_scope.

(** [c.isspace()], which is what [str.strip()] removes.  ASCII is written
    out (tab to carriage return, the four separators [0x1C..0x1F] and the
    space); the other code points are the Unicode table of the Python
    runtime, the parameter [unicode_space]. *)
Definition is_space (unicode_space : N → bool) (c : N) : bool :=
  if c <? 0x80 then
    ((0x09 <=? c) && (c <=? 0x0D)) || ((0x1C <=? c) && (c <=? 0x1F))
    || (c =? 0x20)
  else unicode_space c.

(** [s.lstrip()]. *)
Fixpoint lstrip (unicode_space : N → bool) (s : pystr) : pystr :=
  match s with
  | [] => []
  | c :: s' => if is_space unicode_space c then lstrip unicode_space s' else s
  end.

(** [s.rstrip()]. *)
Definition rstrip (unicode_space : N → bool) (s : pystr) : pystr :=
  rev (lstrip unicode_space (rev s)).

(** [s.strip()]. *)
Definition strip (unicode_space : N → bool) (s : pystr) : pystr :=
  rstrip unicode_space (lstrip unicode_space s).

(** Lines 106-147: what pressing "Generate Individual ID" does with the
    seven text inputs.  [Returns None] is the refusal of line 147; an
    exception of [generate] is not caught there. *)
Definition generate_individual (unicode_upper : N → pystr)
    (unicode_space : N → bool)
    (individual_first_name individual_middle_name individual_last_name
     individual_kendra individual_zone individual_phone individual_email
     : pystr)
    : result (option pystr) :=
  let stripped s := Scalar (SStr (strip unicode_space s)) in
  match strip unicode_space individual_first_name,
        strip unicode_space individual_last_name with
  | _ :: _, _ :: _ =>
      unique_id ← generate_deterministic_unique_id_with_initials unicode_upper
                    (stripped individual_first_name)
                    (stripped individual_middle_name)
                    (stripped individual_last_name)
                    (stripped individual_kendra)
                    (stripped individual_zone)
                    (stripped individual_email)
                    (stripped individual_phone);
      Returns (Some unique_id)
  | _, _ => Returns None
  end.

(** Lines 199-207: the mapping made of the seven select boxes. *)
Definition column_mapping_of
    (first_name_col middle_name_col last_name_col kendra_col zone_col
     phone_col email_col : pystr) : dict :=
  list_to_map
    [(lit "first_name", first_name_col); (lit "middle_name", middle_name_col);
     (lit "last_name", last_name_col); (lit "kendra", kendra_col);
     (lit "zone", zone_col); (lit "phone", phone_col);
     (lit "email", email_col)].

(** Lines 210-213 and 277: what pressing "Generate Unique IDs" does.
    [None] inside is the warning of line 277, where nothing is run. *)
Definition generate_bulk (unicode_upper : N → pystr) (df : loc)
    (first_name_col middle_name_col last_name_col kendra_col zone_col
     phone_col email_col : pystr) (w : world)
    : option (option (result loc) * world) :=
  match first_name_col, last_name_col with
  | _ :: _, _ :: _ =>
      '(processed_df, w') ←
        process_dataframe unicode_upper df
          (column_mapping_of first_name_col middle_name_col last_name_col
             kendra_col zone_col phone_col email_col) w;
      Some (Some processed_df, w')
  | _, _ => Some (None, w)
  end.

(** The keys [process_dataframe] reads with [column_mapping[...]]
    (lines 56-61), in the order it reads them. *)
Definition required_keys : list pystr :=
  [lit "first_name"; lit "middle_name"; lit "last_name"; lit "kendra";
   lit "zone"; lit "email"].
End Main.

Import Main.

(** A cell whose text, if it is a string, is Unicode text. *)
Definition cell_well_formed (x : scalar) : Prop :=
  match x with SStr s => well_formed s | _ => True end.

(** [s'] is [s] with white space around it. *)
Definition padded (unicode_space : N → bool) (s s' : pystr) : Prop :=
  ∃ before after,
    Forall (λ c, is_space unicode_space c = true) before
    ∧ Forall (λ c, is_space unicode_space c = true) after
    ∧ s' = before ++ s ++ after.

(** ** More on the generator *)

Ltac here_or_further :=
  repeat first [apply list_elem_of_here | apply list_elem_of_further].

Section GeneratorMore.
Variable unicode_upper : N → pystr.

Abbreviation gen :=
  (generate_deterministic_unique_id_with_initials unicode_upper).

(** [generate] on seven strings. *)
Abbreviation gen_text first middle last kendra zone email phone :=
  (generate_deterministic_unique_id_with_initials unicode_upper
     (Scalar (SStr first)) (Scalar (SStr middle)) (Scalar (SStr last))
     (Scalar (SStr kendra)) (Scalar (SStr zone)) (Scalar (SStr email))
     (Scalar (SStr phone))).

(** After normalization, [generate] is its last three steps on INITIALS
    and the concatenation. *)
Lemma generate_normalized
    (v_first v_middle v_last v_kendra v_zone v_email v_phone : value)
    (first middle last kendra zone email phone : pystr) :
  normalize v_first = Returns first →
  normalize v_middle = Returns middle →
  normalize v_last = Returns last →
  normalize v_kendra = Returns kendra →
  normalize v_zone = Returns zone →
  normalize v_email = Returns email →
  normalize v_phone = Returns phone →
  gen v_first v_middle v_last v_kendra v_zone v_email v_phone
  = encoded ← encode (concatenation first middle last kendra zone
                        (primary_contact phone email));
    Returns (initials_of unicode_upper first last ++ lit "-"
             ++ fixed_digits 5 (residue encoded)).
Proof.
  intros H1 H2 H3 H4 H5 H6 H7.
  destruct (encode _) as [bytes|e] eqn:Henc.
  - cbn [mbind result_bind].
    rewrite concatenation_unfold, <- primary_contact_of_spec in Henc.
    exact (generate_returns unicode_upper _ _ _ _ _ _ _ _ _ _ _ _ _ _ _
             H1 H2 H3 H4 H5 H6 H7 Henc).
  - unfold generate_deterministic_unique_id_with_initials.
    rewrite H1, H2, H3, H4, H5, H6, H7. cbn [mbind result_bind].
    rewrite primary_contact_of_spec, <- concatenation_unfold, Henc.
    reflexivity.
Qed.

(** X1.  The identifier depends on the seven fields only through INITIALS
    and the concatenation: two records with the same INITIALS and the same
    concatenation get the same result, wherever the field boundaries
    fall. *)
Theorem generate_same_concatenation
    (first middle last kendra zone email phone : pystr)
    (first' middle' last' kendra' zone' email' phone' : pystr) :
  initials_of unicode_upper first last
  = initials_of unicode_upper first' last' →
  concatenation first middle last kendra zone (primary_contact phone email)
  = concatenation first' middle' last' kendra' zone'
      (primary_contact phone' email') →
  gen_text first middle last kendra zone email phone
  = gen_text first' middle' last' kendra' zone' email' phone'.
Proof.
  intros Hini Hcat.
  rewrite (generate_normalized _ _ _ _ _ _ _ first middle last kendra zone
             email phone) by reflexivity.
  rewrite (generate_normalized _ _ _ _ _ _ _ first' middle' last' kendra'
             zone' email' phone') by reflexivity.
  by rewrite Hini, Hcat.
Qed.

(** X2.  The contact channel is not part of the identifier: a record with
    no phone and the email [contact] gets the same result as a record
    with the phone [contact], whatever the email of the latter. *)
Theorem contact_channel_confusion
    (first middle last kendra zone contact other_email : pystr) :
  contact ≠ [] →
  gen_text first middle last kendra zone contact []
  = gen_text first middle last kendra zone other_email contact.
Proof.
  intros Hne.
  rewrite (generate_normalized _ _ _ _ _ _ _ first middle last kendra zone
             contact []) by reflexivity.
  rewrite (generate_normalized _ _ _ _ _ _ _ first middle last kendra zone
             other_email contact) by reflexivity.
  unfold primary_contact. rewrite decide_False by (intros H; by apply H).
  by rewrite decide_True.
Qed.

Lemma utf8_char_none c : scalar_value c = false → utf8_char c = None.
Proof.
  unfold scalar_value, utf8_char, is_surrogate.
  case_compare; simpl; intros; try done; lia.
Qed.

(** [encode] returns on Unicode text, and otherwise raises at the first
    character that is no scalar value. *)
Lemma encode_from_cases s : ∀ pos,
  (well_formed s ∧ ∃ bytes, encode_from pos s = Returns bytes)
  ∨ (∃ (i : nat) c,
       s !! i = Some c ∧ scalar_value c = false ∧ well_formed (take i s)
       ∧ encode_from pos s = Raises (UnicodeEncodeError (pos + i))).
Proof.
  induction s as [|c s IH]; intros pos.
  { left. split; [constructor | by eexists]. }
  destruct (scalar_value c) eqn:Hc.
  - destruct (utf8_char_scalar_value c Hc) as [bs Hbs].
    destruct (IH (S pos)) as [[Hwf [bytes Hbytes]]
                             | (i & c' & Hi & Hc' & Hwf & Hraise)].
    + left. split; [by constructor|].
      exists (bs ++ bytes). cbn [encode_from]. by rewrite Hbs, Hbytes.
    + right. exists (S i), c'. split; [exact Hi|]. split; [exact Hc'|].
      split; [by constructor|].
      cbn [encode_from]. rewrite Hbs, Hraise.
      cbn. do 2 f_equal. lia.
  - right. exists 0%nat, c. split; [done|]. split; [exact Hc|].
    split; [constructor|].
    cbn [encode_from]. rewrite (utf8_char_none c Hc).
    do 2 f_equal. lia.
Qed.

Lemma encode_raises s e :
  encode s = Raises e → ∃ i, e = UnicodeEncodeError i.
Proof.
  unfold encode. intros He.
  destruct (encode_from_cases s 0) as [[_ [bytes Hb]]
                                      | (i & c & _ & _ & _ & Hraise)].
  - congruence.
  - exists (0 + i)%nat. congruence.
Qed.

(** X3.  On seven strings [generate] fails in one way only: it returns
    when the concatenation is Unicode text, and otherwise raises
    [UnicodeEncodeError] at the position, in the concatenation, of the
    first character that cannot be encoded.  A contact that is not
    selected is not in the concatenation and cannot make it fail. *)
Theorem generate_raises_only_on_bad_text
    (first middle last kendra zone email phone : pystr) :
  let text :=
    concatenation first middle last kendra zone (primary_contact phone email)
  in
  (well_formed text
   ∧ ∃ id, gen_text first middle last kendra zone email phone = Returns id)
  ∨ (∃ (i : nat) c,
       text !! i = Some c ∧ scalar_value c = false ∧ well_formed (take i text)
       ∧ gen_text first middle last kendra zone email phone
         = Raises (UnicodeEncodeError i)).
Proof.
  intros text.
  rewrite (generate_normalized _ _ _ _ _ _ _ first middle last kendra zone
             email phone) by reflexivity.
  fold text. unfold encode.
  destruct (encode_from_cases text 0) as [[Hwf [bytes Hb]]
                                         | (i & c & Hi & Hc & Hwf & Hraise)].
  - left. split; [exact Hwf|]. rewrite Hb. by eexists.
  - right. exists i, c. rewrite Hraise. by repeat split.
Qed.

Lemma normalize_cases v :
  (∃ s, normalize v = Returns s)
  ∨ (∃ xs, v = Series xs
           ∧ normalize v = Raises (ValueError AmbiguousTruthValue)).
Proof.
  destruct v as [x|xs]; [left; apply normalize_scalar | right; by exists xs].
Qed.

Ltac normalize_next v :=
  let s := fresh "s" in
  let xs := fresh "xs" in
  let H := fresh "H" in
  destruct (normalize_cases v) as [[s H] | (xs & -> & H)];
  rewrite H; cbn [mbind result_bind].

(** X4.  [generate] raises the [ValueError] of an ambiguous truth value
    exactly when one of its seven arguments is a Series (a cell read
    under a column label that occurs twice), be it an email that would
    not be looked at. *)
Theorem generate_value_error_iff_series
    (first_name middle_name last_name kendra zone email phone : value) :
  gen first_name middle_name last_name kendra zone email phone
  = Raises (ValueError AmbiguousTruthValue)
  ↔ ∃ xs, Series xs ∈ [first_name; middle_name; last_name; kendra; zone;
                       email; phone].
Proof.
  unfold generate_deterministic_unique_id_with_initials.
  normalize_next first_name;
    [|split; [intros _; eexists; here_or_further | done]].
  normalize_next last_name;
    [|split; [intros _; eexists; here_or_further | done]].
  normalize_next middle_name;
    [|split; [intros _; eexists; here_or_further | done]].
  normalize_next kendra;
    [|split; [intros _; eexists; here_or_further | done]].
  normalize_next zone;
    [|split; [intros _; eexists; here_or_further | done]].
  normalize_next email;
    [|split; [intros _; eexists; here_or_further | done]].
  normalize_next phone;
    [|split; [intros _; eexists; here_or_further | done]].
  split.
  - destruct (encode _) as [bytes|e] eqn:Henc; cbn [mbind result_bind].
    + rewrite int_16_hexdigest. discriminate.
    + destruct (encode_raises _ _ Henc) as [i ->]. discriminate.
  - intros [xs Hin].
    repeat (apply elem_of_cons in Hin as [<- | Hin]; [discriminate|]).
    by apply elem_of_nil in Hin.
Qed.

(** Whatever [generate] returns is some text, a dash and five digits. *)
Lemma generate_returns_inv
    (first_name middle_name last_name kendra zone email phone : value) id :
  gen first_name middle_name last_name kendra zone email phone = Returns id →
  ∃ letters ds,
    id = letters ++ lit "-" ++ ds ∧ length ds = 5%nat ∧ Forall is_digit ds.
Proof.
  destruct (normalize first_name) as [f|] eqn:H1;
    [|unfold generate_deterministic_unique_id_with_initials;
      by rewrite H1].
  destruct (normalize last_name) as [l|] eqn:H3;
    [|unfold generate_deterministic_unique_id_with_initials;
      by rewrite H1, H3].
  destruct (normalize middle_name) as [m|] eqn:H2;
    [|unfold generate_deterministic_unique_id_with_initials;
      by rewrite H1, H3, H2].
  destruct (normalize kendra) as [k|] eqn:H4;
    [|unfold generate_deterministic_unique_id_with_initials;
      by rewrite H1, H3, H2, H4].
  destruct (normalize zone) as [z|] eqn:H5;
    [|unfold generate_deterministic_unique_id_with_initials;
      by rewrite H1, H3, H2, H4, H5].
  destruct (normalize email) as [e|] eqn:H6;
    [|unfold generate_deterministic_unique_id_with_initials;
      by rewrite H1, H3, H2, H4, H5, H6].
  destruct (normalize phone) as [p|] eqn:H7;
    [|unfold generate_deterministic_unique_id_with_initials;
      by rewrite H1, H3, H2, H4, H5, H6, H7].
  rewrite (generate_normalized _ _ _ _ _ _ _ _ _ _ _ _ _ _
             H1 H2 H3 H4 H5 H6 H7).
  destruct (encode _) as [bytes|]; [|done].
  cbn [mbind result_bind]. intros Hid.
  exists (initials_of unicode_upper f l), (fixed_digits 5 (residue bytes)).
  split; [congruence|].
  split; [apply fixed_digits_length | apply fixed_digits_are_digits].
Qed.
End GeneratorMore.

(** ** More on the batch *)

Ltac lit_neq :=
  let H := fresh in intros H; vm_compute in H; discriminate H.

Section BatchMore.
Variable unicode_upper : N → pystr.

Lemma row_unique_id_returns_inv column_mapping columns row id :
  row_unique_id unicode_upper column_mapping columns row = Returns id →
  ∃ letters ds,
    id = letters ++ lit "-" ++ ds ∧ length ds = 5%nat ∧ Forall is_digit ds.
Proof.
  unfold row_unique_id.
  repeat (match goal with
          | |- context [dict_getitem ?m ?k] =>
              destruct (dict_getitem m k); cbn [mbind result_bind];
              [|discriminate]
          end).
  apply generate_returns_inv.
Qed.

Lemma identifier_is_not_sentinel column_mapping columns row id :
  row_unique_id unicode_upper column_mapping columns row = Returns id →
  id ≠ lit "ERROR".
Proof.
  intros Hrow ->.
  destruct (row_unique_id_returns_inv _ _ _ _ Hrow)
    as (letters & ds & Heq & _ & _).
  assert (Hin : 0x2D%N ∈ lit "ERROR").
  { rewrite Heq. apply elem_of_app. right. apply list_elem_of_here. }
  vm_compute in Hin.
  repeat (apply elem_of_cons in Hin as [Hin|Hin]; [discriminate Hin|]).
  by apply elem_of_nil in Hin.
Qed.

(** X5.  The sentinel is never mistaken for an identifier: the entry of a
    row is "ERROR" exactly when extraction or generation raised for that
    row, since every identifier holds a dash. *)
Theorem sentinel_marks_failures_only column_mapping columns row :
  row_entry unicode_upper column_mapping columns row = lit "ERROR"
  ↔ ∃ e, row_unique_id unicode_upper column_mapping columns row = Raises e.
Proof.
  unfold row_entry.
  destruct (row_unique_id _ _ _ _) as [id|e] eqn:Hrow.
  - split; [|by intros [? ?]].
    intros Hid. by apply identifier_is_not_sentinel in Hrow.
  - split; [by eexists | done].
Qed.

(** *** Rows that cannot fail *)

Lemma scalar_value_below c : (c < 0xD800)%N → scalar_value c = true.
Proof.
  unfold scalar_value, is_surrogate. intros Hc.
  case_compare; simpl; try done; lia.
Qed.

Lemma digits_well_formed fuel : ∀ n, well_formed (digits fuel n).
Proof.
  induction fuel as [|fuel IH]; intros n; cbn [digits]; [constructor|].
  destruct (N.ltb_spec n 10).
  - repeat constructor. apply scalar_value_below. lia.
  - apply well_formed_app. split; [apply IH|].
    repeat constructor. apply scalar_value_below. lia.
Qed.

Lemma str_int_well_formed z : well_formed (str_int z).
Proof.
  unfold str_int. destruct (z <? 0)%Z.
  - constructor; [done | apply digits_well_formed].
  - apply digits_well_formed.
Qed.

(** The text of a well-formed cell is Unicode text. *)
Lemma normalize_well_formed x :
  cell_well_formed x →
  ∃ s, normalize (Scalar x) = Returns s ∧ well_formed s.
Proof.
  destruct x as [|s|z]; intros Hx; eexists; (split; [reflexivity|]).
  - constructor.
  - exact Hx.
  - apply str_int_well_formed.
Qed.

Lemma cells_under_absent key columns : ∀ row,
  key ∉ columns → cells_under key columns row = [].
Proof.
  induction columns as [|c columns IH]; intros [|x row] Hkey; try done.
  cbn [cells_under]. apply not_elem_of_cons in Hkey as [Hne Hkey].
  rewrite decide_False by done. by apply IH.
Qed.

(** Under distinct labels a label has at most one cell. *)
Lemma cells_under_NoDup key columns : ∀ row,
  NoDup columns →
  cells_under key columns row = []
  ∨ ∃ x, cells_under key columns row = [x] ∧ x ∈ row.
Proof.
  induction columns as [|c columns IH]; intros [|x row] Hnd;
    try (by left).
  apply NoDup_cons in Hnd as [Hc Hnd]. cbn [cells_under].
  destruct (decide (c = key)) as [->|Hne].
  - right. exists x. rewrite cells_under_absent by done.
    split; [done | apply list_elem_of_here].
  - destruct (IH row Hnd) as [Hnil | (y & Hy & Hin)]; [by left|].
    right. exists y. split; [done | by apply list_elem_of_further].
Qed.

Lemma row_get_NoDup key columns row :
  NoDup columns →
  ∃ x, row_get columns row key (Scalar (SStr [])) = Scalar x
       ∧ (x = SStr [] ∨ x ∈ row).
Proof.
  intros Hnd. unfold row_get.
  destruct (cells_under_NoDup key columns row Hnd) as [-> | (x & -> & Hin)].
  - exists (SStr []). by split; [|left].
  - exists x. by split; [|right].
Qed.

Lemma row_get_well_formed key columns row :
  NoDup columns → Forall cell_well_formed row →
  ∃ s, normalize (row_get columns row key (Scalar (SStr []))) = Returns s
       ∧ well_formed s.
Proof.
  intros Hnd Hrow.
  destruct (row_get_NoDup key columns row Hnd) as (x & -> & Hx).
  apply normalize_well_formed. destruct Hx as [-> | Hin]; [constructor|].
  rewrite Forall_forall in Hrow. by apply Hrow.
Qed.

Lemma required_key_lookup (column_mapping : dict) key :
  Forall (λ k, is_Some (column_mapping !! k)) required_keys →
  key ∈ required_keys →
  ∃ label, dict_getitem column_mapping key = Returns label.
Proof.
  intros Hall Hkey. rewrite Forall_forall in Hall.
  destruct (Hall key Hkey) as [label Hlabel].
  exists label. unfold dict_getitem. by rewrite Hlabel.
Qed.

Ltac required_key_next column_mapping Hall key :=
  let label := fresh "label" in
  let H := fresh "H" in
  destruct (required_key_lookup column_mapping key Hall) as [label H];
  [unfold required_keys; here_or_further|];
  rewrite H; cbn [mbind result_bind].

(** A row of well-formed cells, under distinct labels and a mapping with
    every required key, gets an identifier. *)
Lemma row_unique_id_returns column_mapping columns row :
  Forall (λ k, is_Some (column_mapping !! k)) required_keys →
  NoDup columns → Forall cell_well_formed row →
  ∃ id, row_unique_id unicode_upper column_mapping columns row = Returns id.
Proof.
  intros Hall Hnd Hrow. unfold row_unique_id.
  required_key_next column_mapping Hall (lit "first_name").
  required_key_next column_mapping Hall (lit "middle_name").
  required_key_next column_mapping Hall (lit "last_name").
  required_key_next column_mapping Hall (lit "kendra").
  required_key_next column_mapping Hall (lit "zone").
  required_key_next column_mapping Hall (lit "email").
  destruct (row_get_well_formed label columns row Hnd Hrow) as (f & Hf & ?).
  destruct (row_get_well_formed label0 columns row Hnd Hrow) as (m & Hm & ?).
  destruct (row_get_well_formed label1 columns row Hnd Hrow) as (l & Hl & ?).
  destruct (row_get_well_formed label2 columns row Hnd Hrow) as (k & Hk & ?).
  destruct (row_get_well_formed label3 columns row Hnd Hrow) as (z & Hz & ?).
  destruct (row_get_well_formed label4 columns row Hnd Hrow) as (e & He & ?).
  destruct (row_get_well_formed (dict_get column_mapping (lit "phone") [])
              columns row Hnd Hrow) as (p & Hp & ?).
  assert (Hwf : well_formed
    (concatenation f m l k z (primary_contact p e))).
  { rewrite concatenation_unfold. unfold primary_contact.
    repeat (apply well_formed_app; split; [done|]).
    by case_decide. }
  destruct (generate_total unicode_upper _ _ _ _ _ _ _ _ _ _ _ _ _ _
              Hf Hm Hl Hk Hz He Hp Hwf) as (bytes & _ & Hgen).
  eexists. exact Hgen.
Qed.

Lemma rows_errors_none column_mapping columns rows : ∀ index,
  Forall (λ row, ∃ id, row_unique_id unicode_upper column_mapping columns row
                       = Returns id) rows →
  rows_errors unicode_upper column_mapping columns index rows = [].
Proof.
  induction rows as [|row rows IH]; intros index Hrows; [done|].
  apply Forall_cons in Hrows as [[id Hid] Hrows].
  cbn [rows_errors]. rewrite Hid. by apply IH.
Qed.

(** The leading column of an augmented table. *)
Lemma getitem_leading label (ids : list pystr) columns rows :
  length ids = length rows →
  getitem {| columns := label :: columns;
             rows := zip_with cons (SStr <$> ids) rows |} label
  = Returns (SStr <$> ids).
Proof.
  intros Hlen. unfold getitem. cbn [Pandas.columns Pandas.rows list_find].
  rewrite decide_True by done. cbn [fmap option_fmap option_map].
  f_equal. apply list_eq. intros i.
  rewrite !list_lookup_fmap, lookup_zip_with, !list_lookup_fmap.
  destruct (ids !! i) as [id|] eqn:Hid; cbn.
  - destruct (lookup_lt_is_Some_2 rows i) as [row ->]; [|done].
    rewrite <- Hlen. by eapply lookup_lt_Some.
  - done.
Qed.

(** X6.  A clean table has no failures: when the column labels are
    distinct, every string cell is Unicode text, there is no [Unique_ID]
    column and the mapping has its six required keys, no row gets the
    sentinel and nothing is shown by [st.error]. *)
Theorem clean_table_has_no_error df column_mapping w t :
  objs w !! df = Some t →
  lit "Unique_ID" ∉ columns t →
  Forall (λ k, is_Some (column_mapping !! k)) required_keys →
  NoDup (columns t) →
  Forall (Forall cell_well_formed) (rows t) →
  ∃ processed_df w' t' ids,
    process_dataframe unicode_upper df column_mapping w
    = Some (Returns processed_df, w')
    ∧ objs w' !! processed_df = Some t'
    ∧ getitem t' (lit "Unique_ID") = Returns (SStr <$> ids)
    ∧ length ids = length (rows t)
    ∧ (lit "ERROR" ∉ ids)
    ∧ st_errors w' = st_errors w.
Proof.
  intros Hdf Hnew Hall Hnd Hcells.
  assert (Hrows : Forall (λ row,
    ∃ id, row_unique_id unicode_upper column_mapping (columns t) row
          = Returns id) (rows t)).
  { eapply Forall_impl; [exact Hcells|].
    intros row Hrow. by apply row_unique_id_returns. }
  destruct (process_dataframe_spec unicode_upper df column_mapping w t Hdf)
    as [_ Hrun].
  cbv zeta in Hrun.
  rewrite insert_leading in Hrun by (done || by rewrite !length_fmap).
  rewrite rows_errors_none, app_nil_r in Hrun by exact Hrows.
  eexists _, _, _, (row_entry unicode_upper column_mapping (columns t)
                      <$> rows t).
  split; [exact Hrun|]. cbn [objs st_errors].
  split; [apply lookup_insert_eq|].
  split; [apply getitem_leading; by rewrite length_fmap|].
  split; [by rewrite length_fmap|]. split; [|done].
  intros Hin. apply list_elem_of_fmap in Hin as (row & Herr & Hin).
  rewrite Forall_forall in Hrows. destruct (Hrows row Hin) as [id Hid].
  unfold row_entry in Herr. rewrite Hid in Herr.
  by apply identifier_is_not_sentinel in Hid.
Qed.

(** *** What can go wrong in a row *)

Ltac normalize_step v :=
  let s := fresh "s" in
  let xs := fresh "xs" in
  let H := fresh "H" in
  destruct (normalize_cases v) as [[s H] | (xs & _ & H)];
  rewrite H; cbn [mbind result_bind];
  [|intros [= <-]; by left].

(** [generate] raises nothing but the [ValueError] of a Series and
    [UnicodeEncodeError]. *)
Lemma generate_raises_kinds
    (first_name middle_name last_name kendra zone email phone : value) e :
  generate_deterministic_unique_id_with_initials unicode_upper
    first_name middle_name last_name kendra zone email phone = Raises e →
  e = ValueError AmbiguousTruthValue ∨ ∃ i, e = UnicodeEncodeError i.
Proof.
  unfold generate_deterministic_unique_id_with_initials.
  normalize_step first_name. normalize_step last_name.
  normalize_step middle_name. normalize_step kendra.
  normalize_step zone. normalize_step email. normalize_step phone.
  destruct (encode _) as [bytes|e'] eqn:Henc; cbn [mbind result_bind].
  - rewrite int_16_hexdigest. discriminate.
  - intros [= <-]. right. by eapply encode_raises.
Qed.

Lemma row_unique_id_raises_kinds column_mapping columns row e :
  row_unique_id unicode_upper column_mapping columns row = Raises e →
  (∃ key, key ∈ required_keys ∧ column_mapping !! key = None
          ∧ e = KeyError key)
  ∨ e = ValueError AmbiguousTruthValue
  ∨ ∃ i, e = UnicodeEncodeError i.
Proof.
  unfold row_unique_id, dict_getitem.
  repeat (match goal with
          | |- context [?m !! lit ?k] =>
              lazymatch k with
              | "phone"%string => fail
              | _ =>
                  let H := fresh "H" in
                  destruct (m !! lit k) eqn:H; cbn [mbind result_bind];
                  [|intros [= <-]; left; exists (lit k);
                    split; [unfold required_keys; here_or_further|by split]]
              end
          end).
  intros Hgen. right. by eapply generate_raises_kinds.
Qed.

Lemma rows_errors_origin column_mapping columns rows : ∀ index n e,
  (n, e) ∈ rows_errors unicode_upper column_mapping columns index rows →
  ∃ row, row ∈ rows
         ∧ row_unique_id unicode_upper column_mapping columns row = Raises e.
Proof.
  induction rows as [|row rows IH]; intros index n e Hin.
  { by apply elem_of_nil in Hin. }
  cbn [rows_errors] in Hin.
  destruct (row_unique_id _ _ _ row) as [id|e'] eqn:Hrow.
  - destruct (IH _ _ _ Hin) as (row' & Hin' & Hrow').
    exists row'. split; [by apply list_elem_of_further | done].
  - apply elem_of_cons in Hin as [[= -> ->] | Hin].
    + exists row. split; [apply list_elem_of_here | done].
    + destruct (IH _ _ _ Hin) as (row' & Hin' & Hrow').
      exists row'. split; [by apply list_elem_of_further | done].
Qed.

Lemma column_mapping_of_required c1 c2 c3 c4 c5 c6 c7 :
  Forall (λ k, is_Some (column_mapping_of c1 c2 c3 c4 c5 c6 c7 !! k))
    required_keys.
Proof. unfold required_keys. repeat constructor; by eexists. Qed.

(** X7.  The bulk tab of [main].  With the first-name or the last-name
    box left empty nothing is run.  Otherwise [process_dataframe] runs
    with a mapping that has every key, so that no row can fail with
    [KeyError]: whatever is newly shown by [st.error] is the [ValueError]
    of a duplicated column label or a [UnicodeEncodeError]. *)
Theorem bulk_tab_failures df
    (first_name_col middle_name_col last_name_col kendra_col zone_col
     phone_col email_col : pystr) w t :
  objs w !! df = Some t →
  (first_name_col = [] ∨ last_name_col = [] →
   generate_bulk unicode_upper df first_name_col middle_name_col
     last_name_col kendra_col zone_col phone_col email_col w
   = Some (None, w))
  ∧ (first_name_col ≠ [] → last_name_col ≠ [] →
     ∃ outcome w' shown,
       generate_bulk unicode_upper df first_name_col middle_name_col
         last_name_col kendra_col zone_col phone_col email_col w
       = Some (Some outcome, w')
       ∧ st_errors w' = st_errors w ++ shown
       ∧ Forall (λ ne, ne.2 = ValueError AmbiguousTruthValue
                       ∨ ∃ i, ne.2 = UnicodeEncodeError i) shown).
Proof.
  intros Hdf. split.
  - intros [-> | ->]; [done|]. unfold generate_bulk.
    by destruct first_name_col.
  - intros Hfirst Hlast. unfold generate_bulk.
    destruct first_name_col as [|a first_name_col]; [done|].
    destruct last_name_col as [|b last_name_col]; [done|].
    set (m := column_mapping_of _ _ _ _ _ _ _).
    destruct (process_dataframe_spec unicode_upper df m w t Hdf)
      as [_ Hrun].
    cbv zeta in Hrun.
    assert (Hshown : Forall (λ ne : Z * exn,
      ne.2 = ValueError AmbiguousTruthValue
      ∨ ∃ i, ne.2 = UnicodeEncodeError i)
      (rows_errors unicode_upper m (columns t) 0 (rows t))); [|
      destruct (insert 0 _ _ t); rewrite Hrun; cbn [mbind option_bind];
      eexists _, _, _; (split; [reflexivity|]); by split ].
    apply Forall_forall. intros [n e] Hin.
    destruct (rows_errors_origin _ _ _ _ _ _ Hin) as (row & _ & Hrow).
    destruct (row_unique_id_raises_kinds _ _ _ _ Hrow)
      as [(key & Hkey & Hnone & _) | Hkinds]; [|exact Hkinds].
    pose proof (column_mapping_of_required (a :: first_name_col)
                  middle_name_col (b :: last_name_col) kendra_col zone_col
                  phone_col email_col) as Hall.
    rewrite Forall_forall in Hall.
    destruct (Hall key Hkey) as [label Hlabel].
    subst m. unfold pystr in *. congruence.
Qed.

Lemma row_unique_id_missing_key column_mapping key :
  key ∈ required_keys → column_mapping !! key = None →
  ∃ missing,
    missing ∈ required_keys ∧ column_mapping !! missing = None
    ∧ ∀ columns row,
        row_unique_id unicode_upper column_mapping columns row
        = Raises (KeyError missing).
Proof.
  intros Hkey Hnone. unfold row_unique_id, dict_getitem.
  repeat (match goal with
          | |- context [?m !! lit ?k] =>
              lazymatch k with
              | "phone"%string => fail
              | _ =>
                  let H := fresh "H" in
                  destruct (m !! lit k) eqn:H; cbn [mbind result_bind];
                  [|exists (lit k); split;
                    [unfold required_keys; here_or_further|by split]]
              end
          end).
  exfalso. unfold required_keys in Hkey.
  repeat (apply elem_of_cons in Hkey as [-> | Hkey]; [congruence|]).
  by apply elem_of_nil in Hkey.
Qed.

Lemma rows_errors_all_raise column_mapping columns e rows : ∀ start : nat,
  (∀ row, row_unique_id unicode_upper column_mapping columns row = Raises e) →
  rows_errors unicode_upper column_mapping columns (Z.of_nat start) rows
  = (λ i : nat, ((Z.of_nat i + 1)%Z, e)) <$> seq start (length rows).
Proof.
  induction rows as [|row rows IH]; intros start Hrow; [done|].
  cbn [rows_errors length seq fmap list_fmap]. rewrite Hrow.
  f_equal. rewrite <- IH by done. f_equal. lia.
Qed.

(** X8.  A mapping that lacks one of the six keys read with
    [column_mapping[...]] fails every row: whatever the table, the loop
    gives the sentinel for each row and shows one [KeyError] per row,
    numbered from 1. *)
Theorem missing_key_fails_every_row column_mapping key columns rows :
  key ∈ required_keys → column_mapping !! key = None →
  ∃ missing,
    missing ∈ required_keys ∧ column_mapping !! missing = None
    ∧ for_rows unicode_upper column_mapping columns 0 rows [] []
      = (replicate (length rows) (lit "ERROR"),
         (λ i : nat, ((Z.of_nat i + 1)%Z, KeyError missing))
           <$> seq 0 (length rows)).
Proof.
  intros Hkey Hnone.
  destruct (row_unique_id_missing_key column_mapping key Hkey Hnone)
    as (missing & Hin & Hmiss & Hrow).
  exists missing. split; [exact Hin|]. split; [exact Hmiss|].
  rewrite for_rows_spec. cbn [app]. f_equal.
  - induction rows as [|row rows IH]; [done|].
    cbn [fmap list_fmap length replicate]. f_equal; [|exact IH].
    unfold row_entry. by rewrite Hrow.
  - by apply (rows_errors_all_raise _ _ _ _ 0%nat).
Qed.

(** X9.  The [phone] key is optional: a mapping without it behaves as one
    that maps [phone] to the empty column name. *)
Theorem phone_key_is_optional (column_mapping : dict) columns row :
  row_unique_id unicode_upper (delete (lit "phone") column_mapping) columns row
  = row_unique_id unicode_upper (<[lit "phone" := []]> column_mapping)
      columns row.
Proof.
  unfold row_unique_id, dict_getitem, dict_get, dict, pystr in *.
  rewrite lookup_delete_eq, lookup_insert_eq.
  rewrite !lookup_delete_ne, !lookup_insert_ne by lit_neq.
  reflexivity.
Qed.

(** X10.  How [process_dataframe] ends.  Every row is processed, and its
    failures shown, in any case; then the call raises [ValueError] when
    the table already has a column named [Unique_ID], and otherwise
    returns a table that did not exist before. *)
Theorem process_dataframe_outcome df column_mapping w t :
  objs w !! df = Some t →
  ∃ outcome w',
    process_dataframe unicode_upper df column_mapping w = Some (outcome, w')
    ∧ st_errors w'
      = st_errors w
        ++ rows_errors unicode_upper column_mapping (columns t) 0 (rows t)
    ∧ (lit "Unique_ID" ∈ columns t →
       outcome = Raises (ValueError ColumnAlreadyExists))
    ∧ (lit "Unique_ID" ∉ columns t →
       ∃ processed_df,
         outcome = Returns processed_df
         ∧ objs w !! processed_df = None
         ∧ is_Some (objs w' !! processed_df)).
Proof.
  intros Hdf.
  destruct (process_dataframe_spec unicode_upper df column_mapping w t Hdf)
    as [_ Hrun].
  cbv zeta in Hrun.
  destruct (decide (lit "Unique_ID" ∈ columns t)) as [Hin|Hnew].
  - rewrite insert_existing in Hrun by done.
    eexists _, _. split; [exact Hrun|]. by repeat split.
  - rewrite insert_leading in Hrun by (done || by rewrite !length_fmap).
    eexists _, _. split; [exact Hrun|]. split; [done|].
    split; [done|]. intros _. eexists. split; [done|].
    split; [apply fresh_loc_new|].
    cbn [objs]. rewrite lookup_insert_eq. by eexists.
Qed.

(** X11.  Running [process_dataframe] on its own output always fails:
    the first run returns a table with a [Unique_ID] column, on which a
    second run, with any mapping, raises [ValueError]; the first input is
    still what it was. *)
Theorem process_dataframe_twice df column_mapping column_mapping' w t :
  objs w !! df = Some t →
  lit "Unique_ID" ∉ columns t →
  ∃ processed_df w1 w2,
    process_dataframe unicode_upper df column_mapping w
    = Some (Returns processed_df, w1)
    ∧ process_dataframe unicode_upper processed_df column_mapping' w1
      = Some (Raises (ValueError ColumnAlreadyExists), w2)
    ∧ objs w2 !! df = Some t.
Proof.
  intros Hdf Hnew.
  destruct (process_dataframe_spec unicode_upper df column_mapping w t Hdf)
    as [Hne Hrun].
  cbv zeta in Hrun, Hne.
  rewrite insert_leading in Hrun by (done || by rewrite !length_fmap).
  set (p := fresh (dom (objs w))) in *.
  set (t1 := {| columns := lit "Unique_ID" :: columns t; rows := _ |}) in Hrun.
  set (w1 := World _ _) in Hrun.
  assert (Hp : objs w1 !! p = Some t1) by apply lookup_insert_eq.
  destruct (process_dataframe_spec unicode_upper p column_mapping' w1 t1 Hp)
    as [Hne2 Hrun2].
  cbv zeta in Hrun2, Hne2.
  rewrite insert_existing in Hrun2 by apply list_elem_of_here.
  eexists p, w1, _. split; [exact Hrun|]. split; [exact Hrun2|].
  cbn [objs].
  assert (Hdf1 : objs w1 !! df = Some t).
  { unfold w1. cbn [objs]. by rewrite !lookup_insert_ne. }
  rewrite lookup_insert_ne; [exact Hdf1|].
  intros Heq. pose proof (fresh_loc_new w1) as Hfresh.
  rewrite Heq in Hfresh. congruence.
Qed.

Lemma rows_errors_app column_mapping columns rows1 : ∀ rows2 index,
  rows_errors unicode_upper column_mapping columns index (rows1 ++ rows2)
  = rows_errors unicode_upper column_mapping columns index rows1
    ++ rows_errors unicode_upper column_mapping columns
         (index + Z.of_nat (length rows1)) rows2.
Proof.
  induction rows1 as [|row rows1 IH]; intros rows2 index.
  - cbn. f_equal. lia.
  - cbn [app rows_errors length]. rewrite IH.
    replace (index + 1 + Z.of_nat (length rows1))%Z
      with (index + Z.of_nat (S (length rows1)))%Z by lia.
    by destruct (row_unique_id _ _ _ row).
Qed.

(** X12.  The loop can be cut anywhere: running it over the first rows
    and then, from where it stopped, over the rest gives the entries and
    the errors of one run over all the rows, row numbers included. *)
Theorem for_rows_in_chunks column_mapping columns rows1 rows2
    index unique_ids errors :
  for_rows unicode_upper column_mapping columns index (rows1 ++ rows2)
    unique_ids errors
  = let '(unique_ids1, errors1) :=
      for_rows unicode_upper column_mapping columns index rows1
        unique_ids errors in
    for_rows unicode_upper column_mapping columns
      (index + Z.of_nat (length rows1)) rows2 unique_ids1 errors1.
Proof.
  rewrite !for_rows_spec. rewrite fmap_app, rows_errors_app.
  by rewrite !app_assoc.
Qed.
End BatchMore.

(** ** More on the statistics *)

Section StatisticsMore.

Lemma repeats_zero_NoDup (l : list scalar) : repeats l = 0%nat ↔ NoDup l.
Proof.
  induction l as [|x l IH]; [split; [intros _; constructor | done]|].
  cbn [repeats]. rewrite NoDup_cons, <- IH.
  case_decide; split; try lia; tauto.
Qed.

Lemma filter_eq_absent (x : scalar) (l : list scalar) :
  x ∉ l → filter (λ y, y = x) l = [].
Proof.
  induction l as [|a l IH]; intros Hx; [done|].
  apply not_elem_of_cons in Hx as [Hne Hx].
  rewrite filter_cons_False by (intros ->; done). by apply IH.
Qed.

Lemma filter_eq_present (x : scalar) (l : list scalar) :
  x ∈ l → (1 ≤ length (filter (λ y, y = x) l))%nat.
Proof.
  induction l as [|a l IH]; intros Hx; [by apply elem_of_nil in Hx|].
  destruct (decide (a = x)) as [->|Hne].
  - rewrite filter_cons_True by done. cbn [length]. lia.
  - rewrite filter_cons_False by done.
    apply elem_of_cons in Hx as [->|Hx]; [done | by apply IH].
Qed.

(** Distinct values are those that occur once each. *)
Lemma NoDup_occur_once (l : list scalar) :
  NoDup l ↔ ∀ x, x ∈ l → (length (filter (λ y, y = x) l) ≤ 1)%nat.
Proof.
  induction l as [|a l IH].
  { split; [intros _ x Hx; by apply elem_of_nil in Hx | intros _; constructor]. }
  rewrite NoDup_cons. split.
  - intros [Ha Hnd] x Hx.
    destruct (decide (a = x)) as [->|Hne].
    + rewrite filter_cons_True, filter_eq_absent by done. cbn. lia.
    + rewrite filter_cons_False by done.
      apply elem_of_cons in Hx as [->|Hx]; [done|].
      by apply (proj1 IH).
  - intros Hall. split.
    + intros Ha. specialize (Hall a ltac:(apply list_elem_of_here)).
      rewrite filter_cons_True in Hall by done. cbn [length] in Hall.
      pose proof (filter_eq_present a l Ha). lia.
    + apply IH. intros x Hx.
      specialize (Hall x ltac:(by apply list_elem_of_further)).
      destruct (decide (a = x)) as [->|Hne].
      * rewrite filter_cons_True in Hall by done. cbn [length] in Hall. lia.
      * by rewrite filter_cons_False in Hall.
Qed.

Lemma duplicated_keep_false_none (s : list scalar) :
  Forall (λ b, b = false) (duplicated_keep_false s) ↔ NoDup s.
Proof.
  unfold duplicated_keep_false. rewrite Forall_fmap, Forall_forall.
  rewrite NoDup_occur_once. split; intros Hall x Hx.
  - specialize (Hall x Hx). cbn in Hall.
    apply bool_decide_eq_false in Hall. lia.
  - cbn. apply bool_decide_eq_false. specialize (Hall x Hx). lia.
Qed.

Lemma selected_rows_none {A} (mask : list bool) : ∀ rows : list A,
  length mask = length rows →
  zip mask rows ≫= (λ '(dup, row), if dup : bool then [row] else []) = []
  ↔ Forall (λ b, b = false) mask.
Proof.
  induction mask as [|b mask IH]; intros [|row rows] Hlen; try done.
  cbn [zip zip_with mbind list_bind]. injection Hlen as Hlen.
  rewrite Forall_cons. destruct b.
  - split; [done | by intros [? _]].
  - cbn [app]. rewrite <- IH by done. tauto.
Qed.

#[local] Instance SStr_inj : Inj (=) (=) SStr.
Proof. by intros s1 s2 [= ->]. Qed.

(** X13.  What the statistics say about duplicates.  The duplicate count
    is between 0 and the row count, and a non-empty table has at least
    one unique value.  The warning of line 269 is raised, that is the
    duplicate count is positive, exactly when two rows share an
    identifier; and this is also exactly when the list of line 273 has
    rows to show. *)
Theorem duplicate_warning_iff (t : DataFrame) (ids : list pystr) :
  getitem t (lit "Unique_ID") = Returns (SStr <$> ids) →
  ∃ unique_count duplicate_count listed,
    statistics t = Returns (len t, unique_count, duplicate_count)
    ∧ duplicates t = Returns listed
    ∧ (0 ≤ duplicate_count ≤ len t)%Z
    ∧ (0 ≤ unique_count ≤ len t)%Z
    ∧ (ids ≠ [] → 1 ≤ unique_count)%Z
    ∧ ((0 < duplicate_count)%Z ↔ ¬ NoDup ids)
    ∧ (listed ≠ [] ↔ ¬ NoDup ids).
Proof.
  intros Hcol.
  assert (Hlen : length (rows t) = length ids).
  { unfold getitem in Hcol.
    destruct (list_find _ (columns t)) as [[i c]|]; [|done].
    injection Hcol as Hcol. apply (f_equal length) in Hcol.
    by rewrite !length_fmap in Hcol. }
  pose proof (remove_dups_repeats (SStr <$> ids)) as Hrep.
  rewrite remove_dups_fmap_SStr, length_fmap in Hrep.
  assert (Huniq : nunique (SStr <$> ids) = Z.of_nat (length (remove_dups ids))).
  { unfold nunique. by rewrite filter_notnull_SStr, remove_dups_fmap_SStr. }
  assert (Hnd : NoDup (SStr <$> ids) ↔ NoDup ids) by apply (NoDup_fmap _).
  eexists _, _, _.
  split; [unfold statistics; rewrite Hcol; reflexivity|].
  split; [unfold duplicates; rewrite Hcol; reflexivity|].
  rewrite Huniq. unfold len. rewrite Hlen.
  split; [lia|]. split; [lia|]. split.
  { intros Hne. destruct ids as [|id ids]; [done|].
    rewrite remove_dups_cons. case_decide as Hin; cbn [length]; [|lia].
    apply elem_of_remove_dups in Hin.
    destruct (remove_dups ids); [by apply elem_of_nil in Hin | cbn; lia]. }
  split.
  - rewrite <- Hnd, <- repeats_zero_NoDup. lia.
  - rewrite <- Hnd, <- duplicated_keep_false_none.
    rewrite <- (selected_rows_none (duplicated_keep_false (SStr <$> ids))
                  (rows t)); [tauto|].
    unfold duplicated_keep_false. by rewrite !length_fmap.
Qed.
End StatisticsMore.

(** ** The individual tab *)

Section IndividualTab.
Variable unicode_upper : N → pystr.
Variable unicode_space : N → bool.

Abbreviation space c := (is_space unicode_space c = true).
Abbreviation lstrip' := (lstrip unicode_space).
Abbreviation rstrip' := (rstrip unicode_space).
Abbreviation strip' := (strip unicode_space).

Lemma lstrip_blank s : lstrip' s = [] ↔ Forall (λ c, space c) s.
Proof.
  induction s as [|c s IH]; [split; [intros _; constructor | done]|].
  cbn [lstrip]. rewrite Forall_cons.
  destruct (is_space unicode_space c); [rewrite IH; tauto|].
  split; [done | by intros [? _]].
Qed.

Lemma lstrip_app_blank ws s :
  Forall (λ c, space c) ws → lstrip' (ws ++ s) = lstrip' s.
Proof.
  induction ws as [|c ws IH]; intros Hws; [done|].
  apply Forall_cons in Hws as [Hc Hws].
  cbn [app lstrip]. rewrite Hc. by apply IH.
Qed.

Lemma lstrip_app_text s after :
  lstrip' s ≠ [] → lstrip' (s ++ after) = lstrip' s ++ after.
Proof.
  induction s as [|c s IH]; intros Hne; [done|].
  cbn [app lstrip] in *.
  destruct (is_space unicode_space c); [by apply IH | done].
Qed.

Lemma rstrip_app_blank s ws :
  Forall (λ c, space c) ws → rstrip' (s ++ ws) = rstrip' s.
Proof.
  intros Hws. unfold rstrip. rewrite rev_app_distr.
  rewrite lstrip_app_blank; [done|]. by apply Forall_rev.
Qed.

Lemma rstrip_blank s : rstrip' s = [] ↔ Forall (λ c, space c) s.
Proof.
  unfold rstrip. split.
  - intros Hnil. apply (f_equal (@rev N)) in Hnil.
    rewrite rev_involutive in Hnil. cbn in Hnil.
    apply lstrip_blank in Hnil. apply Forall_rev in Hnil.
    by rewrite rev_involutive in Hnil.
  - intros Hs. apply Forall_rev in Hs. apply lstrip_blank in Hs.
    by rewrite Hs.
Qed.

(** What [lstrip] leaves does not start with white space. *)
Lemma lstrip_head s c rest :
  lstrip' s = c :: rest → is_space unicode_space c = false.
Proof.
  induction s as [|a s IH]; [done|]. cbn [lstrip].
  destruct (is_space unicode_space a) eqn:Ha; [exact IH|].
  by intros [= <- _].
Qed.

Lemma strip_blank s : strip' s = [] ↔ Forall (λ c, space c) s.
Proof.
  unfold strip. rewrite rstrip_blank, <- (lstrip_blank s).
  destruct (lstrip' s) as [|c rest] eqn:Hl; [split; [done | intros _; constructor]|].
  split; [|done]. intros Hall. apply Forall_cons in Hall as [Hc _].
  apply lstrip_head in Hl. congruence.
Qed.

Lemma strip_padded s s' : padded unicode_space s s' → strip' s' = strip' s.
Proof.
  intros (before & after & Hb & Ha & ->). unfold strip.
  rewrite lstrip_app_blank by done.
  destruct (lstrip' s) as [|c rest] eqn:Hl.
  - apply lstrip_blank in Hl.
    rewrite lstrip_app_blank by done.
    by rewrite (proj2 (lstrip_blank after) Ha).
  - rewrite lstrip_app_text by (rewrite Hl; done).
    rewrite Hl. by apply rstrip_app_blank.
Qed.

(** X14.  The individual tab refuses, without generating anything,
    exactly when the first name or the last name is empty or made of
    white space only; it never generates an identifier without
    initials. *)
Theorem individual_tab_refuses_blank_names
    (first middle last kendra zone phone email : pystr) :
  generate_individual unicode_upper unicode_space
    first middle last kendra zone phone email = Returns None
  ↔ Forall (λ c, space c) first ∨ Forall (λ c, space c) last.
Proof.
  rewrite <- !strip_blank. unfold generate_individual.
  destruct (strip' first) as [|a f]; [by split; [left|]|].
  destruct (strip' last) as [|b l]; [by split; [right|]|].
  split; [|by intros [?|?]].
  by destruct (generate_deterministic_unique_id_with_initials _ _ _ _ _ _ _ _).
Qed.

(** X15.  White space around any of the seven inputs of the individual
    tab changes nothing. *)
Theorem individual_tab_ignores_padding
    (first middle last kendra zone phone email : pystr)
    (first' middle' last' kendra' zone' phone' email' : pystr) :
  padded unicode_space first first' →
  padded unicode_space middle middle' →
  padded unicode_space last last' →
  padded unicode_space kendra kendra' →
  padded unicode_space zone zone' →
  padded unicode_space phone phone' →
  padded unicode_space email email' →
  generate_individual unicode_upper unicode_space
    first' middle' last' kendra' zone' phone' email'
  = generate_individual unicode_upper unicode_space
      first middle last kendra zone phone email.
Proof.
  intros H1 H2 H3 H4 H5 H6 H7. unfold generate_individual.
  by rewrite (strip_padded _ _ H1), (strip_padded _ _ H2),
    (strip_padded _ _ H3), (strip_padded _ _ H4), (strip_padded _ _ H5),
    (strip_padded _ _ H6), (strip_padded _ _ H7).
Qed.
End IndividualTab.

(** ** Rows, columns and the two tabs *)

Section RowsAndColumns.
Variable unicode_upper : N → pystr.
Variable unicode_space : N → bool.

(** Under distinct labels, the cell at the position of the label. *)
Lemma cells_under_at columns : ∀ row (i : nat) key x,
  NoDup columns → columns !! i = Some key → row !! i = Some x →
  cells_under key columns row = [x].
Proof.
  induction columns as [|c columns IH]; intros [|y row] i key x Hnd Hc Hx;
    try done.
  apply NoDup_cons in Hnd as [Hnotin Hnd]. cbn [cells_under].
  destruct i as [|i].
  - injection Hc as ->. injection Hx as ->.
    rewrite decide_True by done. by rewrite cells_under_absent.
  - cbn in Hc, Hx. rewrite decide_False.
    + by apply (IH row i).
    + intros ->. apply Hnotin. by eapply list_elem_of_lookup_2.
Qed.

Lemma row_get_at columns row (i : nat) key x fallback :
  NoDup columns → columns !! i = Some key → row !! i = Some x →
  row_get columns row key fallback = Scalar x.
Proof.
  intros Hnd Hc Hx. unfold row_get.
  by rewrite (cells_under_at columns row i key x).
Qed.

(** X16.  The two tabs agree on trimmed text: a table row that holds, under
    seven distinct mapped columns, the seven strings typed in the
    individual tab gets the identifier shown there, provided the strings
    have no white space around them and the two names are not empty. *)
Theorem bulk_agrees_with_individual
    (c_first c_middle c_last c_kendra c_zone c_phone c_email : pystr)
    (first middle last kendra zone phone email : pystr) :
  NoDup [c_first; c_middle; c_last; c_kendra; c_zone; c_phone; c_email] →
  strip unicode_space first = first →
  strip unicode_space middle = middle →
  strip unicode_space last = last →
  strip unicode_space kendra = kendra →
  strip unicode_space zone = zone →
  strip unicode_space phone = phone →
  strip unicode_space email = email →
  first ≠ [] → last ≠ [] →
  generate_individual unicode_upper unicode_space
    first middle last kendra zone phone email
  = Some <$> row_unique_id unicode_upper
               (column_mapping_of c_first c_middle c_last c_kendra c_zone
                  c_phone c_email)
               [c_first; c_middle; c_last; c_kendra; c_zone; c_phone; c_email]
               [SStr first; SStr middle; SStr last; SStr kendra; SStr zone;
                SStr phone; SStr email].
Proof.
  intros Hnd H1 H2 H3 H4 H5 H6 H7 Hfirst Hlast.
  unfold generate_individual. rewrite H1, H2, H3, H4, H5, H6, H7.
  destruct first as [|a first]; [done|].
  destruct last as [|b last]; [done|].
  unfold row_unique_id.
  set (m := column_mapping_of _ _ _ _ _ _ _).
  change (dict_getitem m (lit "first_name")) with (Returns (A:=pystr) c_first).
  change (dict_getitem m (lit "middle_name")) with (Returns (A:=pystr) c_middle).
  change (dict_getitem m (lit "last_name")) with (Returns (A:=pystr) c_last).
  change (dict_getitem m (lit "kendra")) with (Returns (A:=pystr) c_kendra).
  change (dict_getitem m (lit "zone")) with (Returns (A:=pystr) c_zone).
  change (dict_getitem m (lit "email")) with (Returns (A:=pystr) c_email).
  change (dict_get m (lit "phone") []) with c_phone.
  cbn [mbind result_bind].
  rewrite (row_get_at _ _ 0 c_first (SStr (a :: first))) by done.
  rewrite (row_get_at _ _ 1 c_middle (SStr middle)) by done.
  rewrite (row_get_at _ _ 2 c_last (SStr (b :: last))) by done.
  rewrite (row_get_at _ _ 3 c_kendra (SStr kendra)) by done.
  rewrite (row_get_at _ _ 4 c_zone (SStr zone)) by done.
  rewrite (row_get_at _ _ 6 c_email (SStr email)) by done.
  rewrite (row_get_at _ _ 5 c_phone (SStr phone)) by done.
  by destruct (generate_deterministic_unique_id_with_initials _ _ _ _ _ _ _ _).
Qed.

Lemma cells_under_skip key c x columns1 : ∀ row1 columns2 row2,
  length row1 = length columns1 → key ≠ c →
  cells_under key (columns1 ++ c :: columns2) (row1 ++ x :: row2)
  = cells_under key (columns1 ++ columns2) (row1 ++ row2).
Proof.
  induction columns1 as [|c1 columns1 IH]; intros [|y row1] columns2 row2
    Hlen Hne; try done.
  - cbn [app cells_under]. by rewrite decide_False.
  - injection Hlen as Hlen. cbn [app cells_under].
    rewrite IH by done. reflexivity.
Qed.

(** X17.  A column that the mapping does not name has no part in the
    identifier: taking it out of the table, cell and label, leaves the
    result of every row as it is.  (The empty label is named by every
    field left unmapped.) *)
Theorem unmapped_column_is_ignored (column_mapping : dict)
    (columns1 columns2 : list pystr) (c : pystr)
    (row1 row2 : list scalar) (x : scalar) :
  length row1 = length columns1 →
  c ≠ [] → (∀ key, column_mapping !! key ≠ Some c) →
  row_unique_id unicode_upper column_mapping
    (columns1 ++ c :: columns2) (row1 ++ x :: row2)
  = row_unique_id unicode_upper column_mapping
      (columns1 ++ columns2) (row1 ++ row2).
Proof.
  intros Hlen Hc Hmap.
  assert (Hget : ∀ key fallback, key ≠ c →
    row_get (columns1 ++ c :: columns2) (row1 ++ x :: row2) key fallback
    = row_get (columns1 ++ columns2) (row1 ++ row2) key fallback).
  { intros key fallback Hne. unfold row_get.
    by rewrite cells_under_skip. }
  assert (Hphone : dict_get column_mapping (lit "phone") [] ≠ c).
  { unfold dict_get. destruct (column_mapping !! lit "phone") eqn:Hp; cbn.
    - intros ->. by apply (Hmap (lit "phone")).
    - intros <-. by apply Hc. }
  unfold row_unique_id, dict_getitem.
  repeat (match goal with
          | |- context [column_mapping !! lit ?k] =>
              lazymatch k with
              | "phone"%string => fail
              | _ =>
                  let H := fresh "H" in
                  let label := fresh "label" in
                  destruct (column_mapping !! lit k) as [label|] eqn:H;
                  cbn [mbind result_bind]; [|reflexivity];
                  rewrite (Hget label) by (intros ->; by apply (Hmap (lit k)))
              end
          end).
  by rewrite Hget.
Qed.
End RowsAndColumns.

(** ** Closed instances of the results above *)

(** No white space beyond ASCII, for closed examples on ASCII text. *)
Definition ascii_space_only : N → bool := λ _, false.

Definition clean_table : DataFrame :=
  {| columns := [lit "First"; lit "Last"; lit "Phone"];
     rows := [[SStr (lit "John"); SStr (lit "Doe"); SInt 555];
              [SStr (lit "Ann"); SStr (lit "Lee"); SNull]] |}.

Definition partial_mapping : dict :=
  list_to_map [(lit "first_name", lit "First"); (lit "last_name", lit "Last")].

Lemma generate_same_concatenation_witness :
  generate_deterministic_unique_id_with_initials ascii_only
    (text "Ann") (text "a") (text "Lee") (text "") (text "") (text "")
    (text "555")
  = generate_deterministic_unique_id_with_initials ascii_only
      (text "Anna") (text "") (text "Lee") (text "") (text "5")
      (text "x@y") (text "55").
Proof.
  apply (generate_same_concatenation ascii_only); reflexivity.
Defined.

Lemma contact_channel_confusion_witness :
  generate_deterministic_unique_id_with_initials ascii_only
    (text "John") (text "") (text "Doe") (text "") (text "") (text "555")
    (text "")
  = generate_deterministic_unique_id_with_initials ascii_only
      (text "John") (text "") (text "Doe") (text "") (text "")
      (text "a@x.com") (text "555").
Proof.
  apply (contact_channel_confusion ascii_only). discriminate.
Defined.

Lemma clean_table_has_no_error_witness :
  ∃ processed_df w' t' ids,
    process_dataframe ascii_only 0%nat names_mapping (world_of clean_table)
    = Some (Returns processed_df, w')
    ∧ objs w' !! processed_df = Some t'
    ∧ getitem t' (lit "Unique_ID") = Returns (SStr <$> ids)
    ∧ length ids = 2%nat
    ∧ (lit "ERROR" ∉ ids)
    ∧ st_errors w' = [].
Proof.
  apply (clean_table_has_no_error ascii_only 0%nat names_mapping
           (world_of clean_table) clean_table).
  - reflexivity.
  - apply (bool_decide_unpack _). vm_compute. exact I.
  - unfold required_keys. repeat constructor; eexists; reflexivity.
  - apply (bool_decide_unpack _). vm_compute. exact I.
  - repeat constructor.
Defined.

Lemma bulk_tab_failures_witness :
  generate_bulk ascii_only 0%nat [] [] (lit "Last") [] [] [] []
    (world_of names_table)
  = Some (None, world_of names_table).
Proof.
  apply (bulk_tab_failures ascii_only 0%nat [] [] (lit "Last") [] [] [] []
           (world_of names_table) names_table eq_refl).
  by left.
Defined.

Lemma missing_key_fails_every_row_witness :
  ∃ missing,
    for_rows ascii_only partial_mapping (columns names_table) 0
      (rows names_table) [] []
    = ([lit "ERROR"; lit "ERROR"; lit "ERROR"],
       [(1%Z, KeyError missing); (2%Z, KeyError missing);
        (3%Z, KeyError missing)]).
Proof.
  destruct (missing_key_fails_every_row ascii_only partial_mapping
              (lit "kendra") (columns names_table) (rows names_table))
    as (missing & _ & _ & Hrun).
  - unfold required_keys. here_or_further.
  - reflexivity.
  - exists missing. exact Hrun.
Defined.

Lemma process_dataframe_outcome_witness :
  ∃ w',
    process_dataframe ascii_only 0%nat names_mapping
      (world_of processed_table)
    = Some (Raises (ValueError ColumnAlreadyExists), w').
Proof.
  destruct (process_dataframe_outcome ascii_only 0%nat names_mapping
              (world_of processed_table) processed_table eq_refl)
    as (outcome & w' & Hrun & _ & Hexists & _).
  exists w'. rewrite Hrun. rewrite Hexists; [reflexivity|].
  apply list_elem_of_here.
Defined.

Lemma process_dataframe_twice_witness :
  ∃ processed_df w1 w2,
    process_dataframe ascii_only 0%nat names_mapping (world_of clean_table)
    = Some (Returns processed_df, w1)
    ∧ process_dataframe ascii_only processed_df partial_mapping w1
      = Some (Raises (ValueError ColumnAlreadyExists), w2)
    ∧ objs w2 !! 0%nat = Some clean_table.
Proof.
  apply (process_dataframe_twice ascii_only 0%nat names_mapping
           partial_mapping (world_of clean_table) clean_table).
  - reflexivity.
  - apply (bool_decide_unpack _). vm_compute. exact I.
Defined.

Lemma duplicate_warning_iff_witness :
  ∃ unique_count duplicate_count listed,
    statistics three_ids = Returns (len three_ids, unique_count, duplicate_count)
    ∧ duplicates three_ids = Returns listed
    ∧ (0 < duplicate_count)%Z ∧ listed ≠ [].
Proof.
  destruct (duplicate_warning_iff three_ids
              [lit "AB-00001"; lit "CD-00002"; lit "AB-00001"] eq_refl)
    as (unique_count & duplicate_count & listed & Hstat & Hlist & _ & _ & _
        & Hdup & Hlisted).
  assert (Hshared : ¬ NoDup [lit "AB-00001"; lit "CD-00002"; lit "AB-00001"]).
  { intros Hnd. apply NoDup_cons in Hnd as [Hnotin _]. apply Hnotin.
    apply list_elem_of_further, list_elem_of_here. }
  exists unique_count, duplicate_count, listed.
  split; [exact Hstat|]. split; [exact Hlist|].
  split; [by apply Hdup | by apply Hlisted].
Defined.

Lemma individual_tab_ignores_padding_witness :
  generate_individual ascii_only ascii_space_only
    (lit " John ") (lit "") (lit "Doe  ") (lit "") (lit "") (lit " 555")
    (lit "")
  = generate_individual ascii_only ascii_space_only
      (lit "John") (lit "") (lit "Doe") (lit "") (lit "") (lit "555")
      (lit "").
Proof.
  apply (individual_tab_ignores_padding ascii_only ascii_space_only).
  - exists (lit " "), (lit " "). by repeat constructor.
  - exists [], []. by repeat constructor.
  - exists [], (lit "  "). by repeat constructor.
  - exists [], []. by repeat constructor.
  - exists [], []. by repeat constructor.
  - exists (lit " "), []. by repeat constructor.
  - exists [], []. by repeat constructor.
Defined.

Lemma bulk_agrees_with_individual_witness :
  generate_individual ascii_only ascii_space_only
    (lit "John") (lit "") (lit "Doe") (lit "") (lit "") (lit "555")
    (lit "a@x.com")
  = Some <$> row_unique_id ascii_only
               (column_mapping_of (lit "F") (lit "M") (lit "L") (lit "K")
                  (lit "Z") (lit "P") (lit "E"))
               [lit "F"; lit "M"; lit "L"; lit "K"; lit "Z"; lit "P"; lit "E"]
               [SStr (lit "John"); SStr (lit ""); SStr (lit "Doe");
                SStr (lit ""); SStr (lit ""); SStr (lit "555");
                SStr (lit "a@x.com")].
Proof.
  apply (bulk_agrees_with_individual ascii_only ascii_space_only);
    try reflexivity; try discriminate.
  apply (bool_decide_unpack _). vm_compute. exact I.
Defined.

Lemma unmapped_column_is_ignored_witness :
  row_unique_id ascii_only names_mapping
    [lit "First"; lit "Age"; lit "Last"]
    [SStr (lit "John"); SInt 42; SStr (lit "Doe")]
  = row_unique_id ascii_only names_mapping
      [lit "First"; lit "Last"] [SStr (lit "John"); SStr (lit "Doe")].
Proof.
  apply (unmapped_column_is_ignored ascii_only names_mapping
           [lit "First"] [lit "Last"] (lit "Age")
           [SStr (lit "John")] [SStr (lit "Doe")] (SInt 42)).
  - reflexivity.
  - discriminate.
  - intros key Hkey.
    unfold names_mapping in Hkey. apply elem_of_list_to_map_2 in Hkey.
    vm_compute in Hkey.
    repeat (apply elem_of_cons in Hkey as [Hkey|Hkey]; [discriminate Hkey|]).
    by apply elem_of_nil in Hkey.
Defined.
